(** * autopath: monitor-configuration generator and batch driver

    A shallow embedding of [generate_config.py] and
    [batch_generate_config.py], and the properties of the two programs
    that their specification states.

    Conventions of the embedding.
    - A Python [str] is a Rocq [string], one character per code point;
      the code points modelled are U+0000..U+00FF, and [py_lower_char],
      [py_isspace] are Python's [str.lower] and [str.isspace] on that
      range.
    - A parsed JSON value is a [json] tree.  The dicts inside it, which
      [cleanup_config] walks in insertion order, are association lists
      with distinct keys; a dict used as a lookup table (the substitution
      mapping, the registry of default projects) is a [gmap].
    - Library and operating-system services the programs call but do not
      define ([json.loads], [json.dumps], [str] of a non-string value,
      [str.title], [os.path.normpath], the file system, the child
      process) are parameters of the sections that use them. *)

From Stdlib Require Import ZArith Ascii String List Bool Lia.
From Stdlib Require Import Floats.SpecFloat.
From stdpp Require Import base option list gmap strings pretty.

Local Open Scope string_scope.
Local Open Scope Z_scope.

(** ** Python string operations *)

Module PyStr.

(** [c.isspace()] for a code point below 256: TAB..CR, FS..US, space,
    NEL and NBSP. *)
Definition py_isspace (c : ascii) : bool :=
  let n := N_of_ascii c in
  ((9 <=? n) && (n <=? 13) || (28 <=? n) && (n <=? 32)
   || (n =? 133) || (n =? 160))%N.

(** [c.lower()] for a code point below 256: A..Z and the upper-case
    letters of Latin-1 (U+00C0..U+00DE without the multiplication sign)
    move up by 32. *)
Definition py_lower_char (c : ascii) : ascii :=
  let n := N_of_ascii c in
  if ((65 <=? n) && (n <=? 90) || (192 <=? n) && (n <=? 214)
      || (216 <=? n) && (n <=? 222))%N
  then ascii_of_N (n + 32) else c.

Fixpoint str_map (f : ascii -> ascii) (s : string) : string :=
  match s with
  | EmptyString => EmptyString
  | String c s' => String (f c) (str_map f s')
  end.

Fixpoint str_forallb (p : ascii -> bool) (s : string) : bool :=
  match s with
  | EmptyString => true
  | String c s' => p c && str_forallb p s'
  end.

(** [s.lower()] on the code points modelled, where Python maps each
    character to one character. *)
Definition lower (s : string) : string := str_map py_lower_char s.

(** [s.replace(old, new)] for one-character [old] and [new]. *)
Definition replace (old new : ascii) (s : string) : string :=
  str_map (fun c => if Ascii.eqb c old then new else c) s.

(** A character that [lower] and the replacement of spaces by underscores
    leave as it is. *)
Definition is_key_char (c : ascii) : bool :=
  Ascii.eqb (py_lower_char c) c && negb (Ascii.eqb c " ").

(** [s.lstrip()], [s.rstrip()], [s.strip()] *)
Fixpoint lstrip (s : string) : string :=
  match s with
  | EmptyString => EmptyString
  | String c s' => if py_isspace c then lstrip s' else s
  end.

Fixpoint rstrip (s : string) : string :=
  match s with
  | EmptyString => EmptyString
  | String c s' =>
      match rstrip s' with
      | EmptyString =>
          if py_isspace c then EmptyString else String c EmptyString
      | r => String c r
      end
  end.

Definition strip (s : string) : string := rstrip (lstrip s).

(** [s.endswith(suffix)] *)
Fixpoint endswith (s suffix : string) : bool :=
  String.eqb s suffix
  || match s with
     | EmptyString => false
     | String _ s' => endswith s' suffix
     end.

(** [s[:-n]] for [n > 0]: all but the last [n] characters. *)
Definition drop_last (n : nat) (s : string) : string :=
  String.substring 0 (String.length s - n) s.

(** [needle in s] *)
Fixpoint contains (needle s : string) : bool :=
  String.prefix needle s
  || match s with
     | EmptyString => false
     | String _ s' => contains needle s'
     end.

(** [s.split(sep)] for a one-character separator: never an empty list. *)
Fixpoint split (sep : ascii) (s : string) : list string :=
  match s with
  | EmptyString => [EmptyString]
  | String c s' =>
      if Ascii.eqb c sep then EmptyString :: split sep s'
      else match split sep s' with
           | [] => [String c EmptyString]
           | w :: ws => String c w :: ws
           end
  end.

(** [s.split(sep, 1)] when [sep] occurs in [s]: the text before the first
    occurrence and the text after it; [None] when [sep] does not occur. *)
Fixpoint split_first (sep : ascii) (s : string) : option (string * string) :=
  match s with
  | EmptyString => None
  | String c s' =>
      if Ascii.eqb c sep then Some (EmptyString, s')
      else match split_first sep s' with
           | Some (k, v) => Some (String c k, v)
           | None => None
           end
  end.

(** Truth value of a string: empty is false. *)
Definition nonempty (s : string) : bool :=
  match s with EmptyString => false | _ => true end.

(** [sorted(names)] on strings: a stable insertion sort by code points. *)
Fixpoint insert_sorted (x : string) (l : list string) : list string :=
  match l with
  | [] => [x]
  | y :: l' => if String.leb x y then x :: l else y :: insert_sorted x l'
  end.

Definition sorted (l : list string) : list string :=
  fold_right insert_sorted [] l.

End PyStr.
Import PyStr.

(** ** JSON values *)

Module Json.

Local Set Warnings "-register-all".

Inductive json : Type :=
| JNull
| JBool (b : bool)
| JInt (n : Z)
| JFloat (x : spec_float)
| JStr (s : string)
| JArr (items : list json)
| JObj (fields : list (string * json)).

(** Induction over [json] that reaches the elements of arrays and the
    values of objects. *)
Section json_induction.
Variable P : json -> Prop.
Hypothesis Hnull : P JNull.
Hypothesis Hbool : forall b, P (JBool b).
Hypothesis Hint : forall n, P (JInt n).
Hypothesis Hfloat : forall x, P (JFloat x).
Hypothesis Hstr : forall s, P (JStr s).
Hypothesis Harr : forall items, Forall P items -> P (JArr items).
Hypothesis Hobj :
  forall fields, Forall (fun kv => P (snd kv)) fields -> P (JObj fields).

Fixpoint json_nested_ind (v : json) : P v :=
  match v with
  | JNull => Hnull
  | JBool b => Hbool b
  | JInt n => Hint n
  | JFloat x => Hfloat x
  | JStr s => Hstr s
  | JArr items =>
      Harr items
        ((fix go (l : list json) : Forall P l :=
            match l with
            | [] => @List.Forall_nil _ P
            | x :: l' =>
                @List.Forall_cons _ P x l' (json_nested_ind x) (go l')
            end) items)
  | JObj fields =>
      Hobj fields
        ((fix go (l : list (string * json))
            : Forall (fun kv => P (snd kv)) l :=
            match l with
            | [] => @List.Forall_nil _ _
            | kv :: l' =>
                @List.Forall_cons _ _ kv l'
                  (match kv return P (snd kv) with
                   | (_, x) => json_nested_ind x
                   end)
                  (go l')
            end) fields)
  end.
End json_induction.

(** [isinstance(item, str)] and [item] is the empty string. *)
Definition is_empty_str (item : json) : bool :=
  match item with
  | JStr s => if decide (s = EmptyString) then true else false
  | _ => false
  end.

(** [cleanup_config]: lists are cleaned element by element and then lose
    their empty-string elements; dicts keep every key; anything else is
    returned as it is. *)
Fixpoint cleanup_config (value : json) : json :=
  match value with
  | JArr items =>
      let cleaned := map cleanup_config items in
      JArr (List.filter (fun item => negb (is_empty_str item)) cleaned)
  | JObj fields =>
      JObj (map (fun '(k, v) => (k, cleanup_config v)) fields)
  | _ => value
  end.

End Json.
Import Json.

(** ** [string.Template.safe_substitute] *)

Module Template.

(** The identifier pattern of [Template]: an ASCII letter or underscore,
    then ASCII letters, digits and underscores, in either case. *)
Definition is_id_start (c : ascii) : bool :=
  let n := N_of_ascii c in
  ((n =? 95) || (97 <=? n) && (n <=? 122) || (65 <=? n) && (n <=? 90))%N.

Definition is_id_char (c : ascii) : bool :=
  let n := N_of_ascii c in
  (is_id_start c || (48 <=? n) && (n <=? 57))%N.

(** The longest run of identifier characters at the head of [s], and what
    follows it. *)
Fixpoint span_id (s : string) : string * string :=
  match s with
  | EmptyString => (EmptyString, EmptyString)
  | String c s' =>
      if is_id_char c
      then let '(name, rest) := span_id s' in (String c name, rest)
      else (EmptyString, s)
  end.

(** A whole string that the identifier pattern matches. *)
Definition is_identifier (s : string) : bool :=
  match s with
  | EmptyString => false
  | String c s' => is_id_start c && str_forallb is_id_char s'
  end.

(** Whether the text goes on with an identifier character. *)
Definition at_id_char (s : string) : bool :=
  match s with
  | EmptyString => false
  | String c _ => is_id_char c
  end.

Definition match_identifier (s : string) : option (string * string) :=
  match s with
  | EmptyString => None
  | String c _ => if is_id_start c then Some (span_id s) else None
  end.

(** What the pattern matches after a delimiter [$]; the alternatives are
    tried in the order of the pattern: [escaped], [named], [braced],
    [invalid].  Each carries the text that follows the match. *)
Inductive delimiter_match : Type :=
| Escaped (rest : string)
| Named (name rest : string)
| Braced (name rest : string)
| Invalid.

Definition match_braced (s : string) : delimiter_match :=
  match s with
  | EmptyString => Invalid
  | String c s' =>
      if Ascii.eqb c "{" then
        match match_identifier s' with
        | Some (name, String d rest) =>
            if Ascii.eqb d "}" then Braced name rest else Invalid
        | _ => Invalid
        end
      else Invalid
  end.

Definition match_delimiter (s : string) : delimiter_match :=
  match s with
  | EmptyString => Invalid
  | String c rest =>
      if Ascii.eqb c "$" then Escaped rest
      else
        match match_identifier s with
        | Some (name, rest) => Named name rest
        | None => match_braced s
        end
  end.

(** [convert] of [safe_substitute] for a named or braced group: the value
    of the key, or the matched text itself when the key is absent. *)
Definition convert (mapping : gmap string string) (name matched : string)
  : string :=
  match mapping !! name with
  | Some v => v
  | None => matched
  end.

(** [pattern.sub(convert, template)], on the text [s] left to scan.  Every
    step consumes at least one character, so [String.length s] steps of
    fuel are enough. *)
Fixpoint sub (mapping : gmap string string) (fuel : nat) (s : string)
  : string :=
  match fuel with
  | O => EmptyString
  | S fuel' =>
      match s with
      | EmptyString => EmptyString
      | String c rest =>
          if Ascii.eqb c "$" then
            match match_delimiter rest with
            | Escaped r => "$" ++ sub mapping fuel' r
            | Named name r =>
                convert mapping name ("$" ++ name) ++ sub mapping fuel' r
            | Braced name r =>
                convert mapping name ("${" ++ name ++ "}")
                ++ sub mapping fuel' r
            | Invalid => "$" ++ sub mapping fuel' rest
            end
          else String c (sub mapping fuel' rest)
      end
  end.

Definition safe_substitute (mapping : gmap string string) (template : string)
  : string :=
  sub mapping (String.length template) template.

End Template.
Import Template.

(** ** Exceptions and the monad of the two programs *)

Inductive exn : Type :=
| ValueError_kv (item : string)   (* parse_kv: no equals sign in the item *)
| ValueError_placeholder          (* a placeholder is left after rendering *)
| JSONDecodeError
| TypeError
| AttributeError
| OSError
| SystemExit (status : Z)         (* parser.error *)
| FileNotFoundError_extracted
| ValueError_filter (item : string)
| ValueError_update.               (* dict.update: an element is no pair *)

Inductive outcome (A : Type) : Type :=
| Return (a : A)
| Raise (e : exn).
Arguments Return {A} a.
Arguments Raise {A} e.

(** A computation on a world [W]: it returns or raises, and in both cases
    leaves a world behind. *)
Definition prog (W A : Type) : Type := W -> outcome A * W.

Definition ret {W A} (a : A) : prog W A := fun w => (Return a, w).
Definition raise {W A} (e : exn) : prog W A := fun w => (Raise e, w).
Definition bind {W A B} (m : prog W A) (k : A -> prog W B) : prog W B :=
  fun w =>
    match m w with
    | (Return a, w') => k a w'
    | (Raise e, w') => (Raise e, w')
    end.

Notation "'let*' x ':=' m 'in' k" := (bind m (fun x => k))
  (at level 10, x name, m at level 100, k at level 200).

(** A pure computation that may raise. *)
Definition lift {W A} (r : outcome A) : prog W A := fun w => (r, w).

(** [for x in xs: acc = body(x, acc)] *)
Fixpoint for_each {W A B} (body : A -> B -> prog W B) (xs : list A) (acc : B)
  : prog W B :=
  match xs with
  | [] => ret acc
  | x :: xs' => let* acc' := body x acc in for_each body xs' acc'
  end.

(** ** generate_config.py *)

Module Gen.

(** One entry of [DEFAULT_PROJECTS]; a key the entry does not have is
    [None]. *)
Record project_defaults : Type := {
  pd_deploy : option string;
  pd_template : option string;
  pd_output : option string;
  pd_vars : option (gmap string json);
}.

(** The [{}] of [DEFAULT_PROJECTS.get(project, {})]. *)
Definition no_defaults : project_defaults :=
  {| pd_deploy := None; pd_template := None; pd_output := None;
     pd_vars := None |}.

Definition DEFAULT_PROJECTS : gmap string project_defaults :=
  {[ "lodestar" :=
       {| pd_deploy :=
            Some "../test/Lodestar/scripts/data/deployed-local.json";
          pd_template := Some "config/templates/lodestar_dynamic.json.tmpl";
          pd_output := Some "pkg/invariants/configs/lodestar-dynamic.json";
          pd_vars :=
            Some {[ "project_id" := JStr "lodestar-local-dynamic";
                    "project_name" :=
                      JStr "Lodestar Protocol (Local Dynamic)" ]} |} ]}.

(** Services of the operating system, on paths given as strings.  [None]
    stands for the call raising [OSError]. *)
Class GenOS (FS : Type) : Type := {
  os_path_exists : string -> FS -> bool;
  os_path_normpath : string -> string;
  read_text : string -> FS -> option string;
  (** [open] for writing, followed by writing the text *)
  write_text : string -> string -> FS -> option FS;
  (** [Path(path).parent.mkdir(parents=True, exist_ok=True)] *)
  mkdir_parent_of : string -> FS -> option FS;
}.

(** Services of the Python library that the program calls on values:
    [json.loads] ([None] for [JSONDecodeError]), [json.dumps(_, indent=2)],
    [str] of a value that is neither [None] nor a string, [str.title]. *)
Class PyLib : Type := {
  json_loads : string -> option json;
  json_dumps : json -> string;
  py_str : json -> string;
  py_title : string -> string;
}.

Inductive message : Type :=
| WarnDeployMissing (deploy_path : string)
| Generated (output_path : string)
| ContractCount (n : nat)
| PreviewHeader
| PreviewItem (text : string).

Record world (FS : Type) : Type := {
  w_fs : FS;
  w_out : list message;
}.
Arguments w_fs {FS} w.
Arguments w_out {FS} w.

(** Command-line arguments after [parse_args]; [--project] has its default
    filled in by the parser, [--var] is the list of its occurrences. *)
Record Namespace : Type := {
  args_project : string;
  args_deploy : option string;
  args_template : option string;
  args_output : option string;
  args_var : list string;
}.

(** [parse_kv] *)
Fixpoint parse_kv_loop (result : gmap string string) (pairs : list string)
  : outcome (gmap string string) :=
  match pairs with
  | [] => Return result
  | item :: pairs' =>
      match split_first "=" item with
      | None => Raise (ValueError_kv item)
      | Some (key, value) =>
          parse_kv_loop (<[strip key := strip value]> result) pairs'
      end
  end.

Definition parse_kv (pairs : list string) : outcome (gmap string string) :=
  parse_kv_loop ∅ pairs.

(** [mapping.update(other)] and [mapping.setdefault(key, value)] *)
Definition dict_update (mapping other : gmap string json) : gmap string json :=
  other ∪ mapping.

Definition setdefault (key : string) (value : json)
    (mapping : gmap string json) : gmap string json :=
  match mapping !! key with
  | Some _ => mapping
  | None => <[key := value]> mapping
  end.

(** [a or b] on optional strings: [None] and the empty string are false. *)
Definition py_or (a b : option string) : option string :=
  match a with
  | Some s => if nonempty s then a else b
  | None => b
  end.

(** The three [update] calls of [main] (lines 102, 104, 105), on the
    contents of the deployment file, the default vars of the project and
    the parsed [--var] pairs. *)
Definition merged_mapping (deploy default_vars : gmap string json)
    (overrides : gmap string string) : gmap string json :=
  dict_update (dict_update (dict_update ∅ deploy) default_vars)
    (JStr <$> overrides).

(** The value of a key in [string_mapping]: the empty string for [None],
    [str(v)] otherwise. *)
Definition to_text `{PyLib} (v : json) : string :=
  match v with
  | JNull => EmptyString
  | JStr s => s
  | _ => py_str v
  end.

(** [value.get(key, default)] on a parsed JSON object *)
Fixpoint dict_get (key : string) (fields : list (string * json))
  (default : json) : json :=
  match fields with
  | [] => default
  | (k, v) :: fields' =>
      if decide (k = key) then v else dict_get key fields' default
  end.

(** [len(value)]; numbers, booleans and [None] have no length. *)
Definition py_len (value : json) : outcome nat :=
  match value with
  | JArr items => Return (List.length items)
  | JStr s => Return (String.length s)
  | JObj fields => Return (List.length fields)
  | _ => Raise TypeError
  end.

Fixpoint chars (s : string) : list string :=
  match s with
  | EmptyString => []
  | String c s' => String c EmptyString :: chars s'
  end.

(** [addr] as the f-string of a preview line formats it. *)
Definition addr_text `{PyLib} (addr : json) : string :=
  match addr with
  | JNull => "None"
  | JStr s => s
  | _ => py_str addr
  end.

(** The items of [value[:n]] in iteration order; a dict cannot be sliced
    ([TypeError], [KeyError] from Python 3.12 on). *)
Definition preview_items `{PyLib} (value : json) (n : nat)
  : outcome (list string) :=
  match value with
  | JArr items => Return (map addr_text (take n items))
  | JStr s => Return (take n (chars s))
  | _ => Raise TypeError
  end.

(** One element of the sequence that [mapping.update] is given when its
    argument is no dict: the element is read as a sequence of length two,
    the key and the value.  A list gives its two items, a string of two
    characters gives them, a dict gives its two keys.  A key that is a
    list or a dict cannot be hashed; a key that is a number, a boolean or
    [None] is stored, but no placeholder name, which is a string, ever
    looks it up: it is [None] here. *)
Definition update_pair (item : json) : outcome (option string * json) :=
  match item with
  | JArr [key; value] =>
      match key with
      | JStr s => Return (Some s, value)
      | JArr _ | JObj _ => Raise TypeError
      | _ => Return (None, value)
      end
  | JArr _ => Raise ValueError_update
  | JStr (String a (String b EmptyString)) =>
      Return (Some (String a EmptyString), JStr (String b EmptyString))
  | JStr _ => Raise ValueError_update
  | JObj [(key1, _); (key2, _)] => Return (Some key1, JStr key2)
  | JObj _ => Raise ValueError_update
  | _ => Raise TypeError
  end.

Fixpoint update_pairs (mapping : gmap string json) (items : list json)
  : outcome (gmap string json) :=
  match items with
  | [] => Return mapping
  | item :: items' =>
      match update_pair item with
      | Raise e => Raise e
      | Return (Some key, value) => update_pairs (<[key := value]> mapping) items'
      | Return (None, _) => update_pairs mapping items'
      end
  end.

(** [mapping.update(other)] on a value read from a JSON file: a dict gives
    its items; a list is a sequence of pairs; a string is a sequence of
    its characters, none of which is a pair; a number, a boolean and
    [None] cannot be iterated. *)
Definition dict_update_json (mapping : gmap string json) (other : json)
  : outcome (gmap string json) :=
  match other with
  | JObj fields => Return (foldl (fun m '(k, v) => <[k := v]> m) mapping fields)
  | JArr items => update_pairs mapping items
  | JStr EmptyString => Return mapping
  | JStr _ => Raise ValueError_update
  | _ => Raise TypeError
  end.

Section Generator.
Context {FS : Type} `{GenOS FS} `{PyLib}.

Definition print (m : message) : prog (world FS) unit :=
  fun w =>
    (Return tt, {| w_fs := w_fs w; w_out := (w_out w ++ [m])%list |}).

Definition get_fs : prog (world FS) FS := fun w => (Return (w_fs w), w).

(** An operating-system call that changes the file system. *)
Definition os_call (f : FS -> option FS) : prog (world FS) unit :=
  fun w =>
    match f (w_fs w) with
    | Some fs' => (Return tt, {| w_fs := fs'; w_out := w_out w |})
    | None => (Raise OSError, w)
    end.

(** [load_json_if_exists]: the value of the file, of whatever kind, or
    the empty dict. *)
Definition load_json_if_exists (path : string) : prog (world FS) json :=
  let* fs := get_fs in
  if negb (nonempty path) || negb (os_path_exists path fs) then ret (JObj [])
  else
    match read_text path fs with
    | None => raise OSError
    | Some text =>
        match json_loads text with
        | None => raise JSONDecodeError
        | Some value => ret value
        end
    end.

(** [generate_from_template] *)
Definition render (template_text : string) (mapping : gmap string json)
  : outcome json :=
  let string_mapping := to_text <$> mapping in
  let rendered := safe_substitute string_mapping template_text in
  if contains "${" rendered then Raise ValueError_placeholder
  else
    match json_loads rendered with
    | None => Raise JSONDecodeError
    | Some data => Return (cleanup_config data)
    end.

Definition generate_from_template (template_path : string)
    (mapping : gmap string json) : prog (world FS) json :=
  let* fs := get_fs in
  match read_text template_path fs with
  | None => raise OSError
  | Some template_text => lift (render template_text mapping)
  end.

(** [ensure_parent_dir] *)
Definition ensure_parent_dir (path : string) : prog (world FS) unit :=
  os_call (mkdir_parent_of path).

(** The three [setdefault] calls of [main] (lines 106 to 108). *)
Definition with_fallbacks (project output_path : string)
    (mapping : gmap string json) : gmap string json :=
  setdefault "config_path" (JStr output_path)
    (setdefault "project_name"
       (JStr (py_title project ++ " Project (Dynamic)"))
       (setdefault "project_id" (JStr (project ++ "-dynamic")) mapping)).

(** Lines 96 to 102 of [main]: the mapping after the update from the
    deployment file; it is empty when no path is given or the file does
    not exist. *)
Definition deploy_fields (deploy_path : option string)
  : prog (world FS) (gmap string json) :=
  match py_or deploy_path None with
  | None => ret ∅
  | Some deploy_path =>
      let deploy_path := os_path_normpath deploy_path in
      let* fs := get_fs in
      if negb (os_path_exists deploy_path fs)
      then let* _ := print (WarnDeployMissing deploy_path) in ret ∅
      else
        let* value := load_json_if_exists deploy_path in
        lift (dict_update_json ∅ value)
  end.

(** The fallback of each of the three keys of lines 106 to 108. *)
Definition fallback_of (project output_path key : string) : option json :=
  if decide (key = "project_id") then Some (JStr (project ++ "-dynamic"))
  else if decide (key = "project_name")
  then Some (JStr (py_title project ++ " Project (Dynamic)"))
  else if decide (key = "config_path") then Some (JStr output_path)
  else None.

(** Lines 96 to 108 of [main]: the substitution mapping. *)
Definition build_mapping (project : string) (defaults : project_defaults)
    (deploy_path : option string) (output_path : string)
    (var : list string) : prog (world FS) (gmap string json) :=
  let* deploy := deploy_fields deploy_path in
  let* overrides := lift (parse_kv var) in
  ret (with_fallbacks project output_path
         (merged_mapping deploy (default ∅ (pd_vars defaults)) overrides)).

(** Lines 115 to 122 of [main]: the summary of the written config. *)
Definition print_summary (output_path : string) (config : json)
  : prog (world FS) unit :=
  match config with
  | JObj fields =>
      let contracts := dict_get "contracts" fields (JArr []) in
      let* contract_count := lift (py_len contracts) in
      let* _ := print (Generated output_path) in
      let* _ := print (ContractCount contract_count) in
      if negb (Nat.eqb contract_count 0) then
        let* preview :=
          lift (preview_items contracts (Nat.min 5 contract_count)) in
        let* _ := print PreviewHeader in
        for_each (fun addr _ => print (PreviewItem addr)) preview tt
      else ret tt
  | _ => raise AttributeError
  end.

(** [main], on a registry of default projects. *)
Definition main_with (registry : gmap string project_defaults)
    (args : Namespace) : prog (world FS) unit :=
  let project := lower (args_project args) in
  let defaults := default no_defaults (registry !! project) in
  let deploy_path := py_or (args_deploy args) (pd_deploy defaults) in
  let template_path := py_or (args_template args) (pd_template defaults) in
  let output_path :=
    default ("pkg/invariants/configs/" ++ project ++ "-dynamic.json")
      (py_or (args_output args) (py_or (pd_output defaults) None)) in
  match py_or template_path None with
  | None => raise (SystemExit 2)
  | Some template_path =>
      let* mapping :=
        build_mapping project defaults deploy_path output_path
          (args_var args) in
      let* config := generate_from_template template_path mapping in
      let* _ := ensure_parent_dir output_path in
      let* _ := os_call (write_text output_path (json_dumps config)) in
      print_summary output_path config
  end.

Definition main (args : Namespace) : prog (world FS) unit :=
  main_with DEFAULT_PROJECTS args.

End Generator.

End Gen.

(** ** batch_generate_config.py *)

Module Batch.

(** [pathlib.Path] and the services of the operating system the driver
    uses.  [None] stands for the call raising [OSError]: [Path.exists] and
    [Path.is_dir] answer [False] when the path is not there, and raise on
    any other failure of [stat], a name that is too long for one;
    [path_iterdir] gives the names of the entries of a directory, in the
    order of the operating system; [subprocess_run cmd cwd] gives the
    return code of the child, the file system it leaves and the lines it
    writes on the standard output, which it shares with the driver. *)
Class BatchOS (Path FS : Type) : Type := {
  joinpath : Path -> string -> Path;
  path_str : Path -> string;
  path_exists : Path -> FS -> option bool;
  path_is_dir : Path -> FS -> option bool;
  path_iterdir : Path -> FS -> option (list string);
  path_mkdir_parents : Path -> FS -> option FS;
  subprocess_run :
    list string -> Path -> FS -> option (Z * FS * list string);
}.

(** What is written on the standard output: the lines of the driver, and
    the lines of a child. *)
Inductive message : Type :=
| NoProtocolsFound
| TemplateMissing (protocol template_path : string)
| OutputExists (output_path : string)
| DryRun (cmd : list string)
| Generating (cmd : list string)
| Summary (success skipped failed : nat)
| ChildLine (text : string).

(** The world of the driver: the file system, the writes on the standard
    output in the order of the program, and the commands of the children
    it has run. *)
Record world (FS : Type) : Type := {
  w_fs : FS;
  w_out : list message;
  w_spawned : list (list string);
}.
Arguments w_fs {FS} w.
Arguments w_out {FS} w.
Arguments w_spawned {FS} w.

Record Namespace : Type := {
  args_filter : list string;
  args_protocols : option (list string);
  args_var : list string;
  args_force : bool;
  args_dry_run : bool;
  args_quiet : bool;
}.

(** The three counters of [main]. *)
Record tally : Type := {
  success : nat;
  skipped : nat;
  failed : nat;
}.

Definition no_tally : tally := {| success := 0; skipped := 0; failed := 0 |}.
Definition count_success (t : tally) : tally :=
  {| success := S (success t); skipped := skipped t; failed := failed t |}.
Definition count_skipped (t : tally) : tally :=
  {| success := success t; skipped := S (skipped t); failed := failed t |}.
Definition count_failed (t : tally) : tally :=
  {| success := success t; skipped := skipped t; failed := S (failed t) |}.

Definition total (t : tally) : nat := (success t + skipped t + failed t)%nat.

(** [parse_protocols] *)
Definition add_name (st : gset string * list string) (name : string)
  : gset string * list string :=
  if decide (name ∈ st.1) then st
  else ({[name]} ∪ st.1, (st.2 ++ [name])%list).

Definition entry_parts (entry : string) : list string :=
  map strip (List.filter (fun p => nonempty (strip p)) (split "," entry)).

Definition add_entry (st : gset string * list string) (entry : string)
  : gset string * list string :=
  if nonempty entry then foldl add_name st (entry_parts entry) else st.

Definition parse_protocols (protocol_args : option (list string))
  : list string :=
  match protocol_args with
  | None | Some [] => []
  | Some entries => (foldl add_entry (∅, []) entries).2
  end.

(** [protocol_to_key] *)
Definition protocol_to_key (protocol : string) : string :=
  let key := replace " " "_" (lower (strip protocol)) in
  if endswith key "_exp" then drop_last 4 key else key.

(** The validation of [--filter] in [collect_protocols]. *)
Fixpoint normalize_filters (normalized_filters : gset string)
    (filters : list string) : outcome (gset string) :=
  match filters with
  | [] => Return normalized_filters
  | item :: filters' =>
      let item := strip item in
      if negb (nonempty item) then normalize_filters normalized_filters filters'
      else if negb (Nat.eqb (String.length item) 7)
              || negb (bool_decide (String.get 4 item = Some "-"%char))
      then Raise (ValueError_filter item)
      else normalize_filters ({[item]} ∪ normalized_filters) filters'
  end.

(** Where the driver is installed: [Path(__file__).resolve().parent], its
    parent, and [sys.executable]. *)
Class Install (Path : Type) : Type := {
  SCRIPT_DIR : Path;
  PROJECT_ROOT : Path;
  sys_executable : string;
}.

Section Driver.
Context {Path FS : Type} `{BatchOS Path FS} `{Install Path}.

Definition GENERATE_CONFIG : Path := joinpath SCRIPT_DIR "generate_config.py".
Definition EXTRACTED_ROOT : Path :=
  joinpath (joinpath PROJECT_ROOT "DeFiHackLabs") "extracted_contracts".
Definition GENERATED_ROOT : Path := joinpath PROJECT_ROOT "generated".
Definition TEMPLATE_FALLBACK_ROOT : Path :=
  joinpath (joinpath SCRIPT_DIR "config") "templates".
Definition OUTPUT_ROOT : Path :=
  joinpath (joinpath (joinpath SCRIPT_DIR "pkg") "invariants") "configs".

Definition print (m : message) : prog (world FS) unit :=
  fun w => (Return tt,
            {| w_fs := w_fs w; w_out := (w_out w ++ [m])%list;
               w_spawned := w_spawned w |}).

(** [if not args.quiet: print(...)] *)
Definition log (quiet : bool) (m : message) : prog (world FS) unit :=
  if quiet then ret tt else print m.

Definition get_fs : prog (world FS) FS := fun w => (Return (w_fs w), w).

Definition mkdir_parents (p : Path) : prog (world FS) unit :=
  fun w =>
    match path_mkdir_parents p (w_fs w) with
    | Some fs' =>
        (Return tt,
         {| w_fs := fs'; w_out := w_out w; w_spawned := w_spawned w |})
    | None => (Raise OSError, w)
    end.

Definition iterdir (p : Path) : prog (world FS) (list string) :=
  fun w =>
    match path_iterdir p (w_fs w) with
    | Some names => (Return names, w)
    | None => (Raise OSError, w)
    end.

(** [p.exists()] and [p.is_dir()] *)
Definition check_exists (p : Path) : prog (world FS) bool :=
  fun w =>
    match path_exists p (w_fs w) with
    | Some found => (Return found, w)
    | None => (Raise OSError, w)
    end.

Definition check_is_dir (p : Path) : prog (world FS) bool :=
  fun w =>
    match path_is_dir p (w_fs w) with
    | Some found => (Return found, w)
    | None => (Raise OSError, w)
    end.

(** The names of [names] that are directories of [parent], in the order of
    [names]; the first [is_dir] that raises ends the loop. *)
Definition keep_dirs (parent : Path) (names : list string)
  : prog (world FS) (list string) :=
  for_each
    (fun d dirs =>
       let* found := check_is_dir (joinpath parent d) in
       ret (if found then dirs ++ [d] else dirs)%list)
    names [].

(** [subprocess.run(cmd, cwd=cwd).returncode]; the child writes its lines
    on the standard output of the driver. *)
Definition run (cmd : list string) (cwd : Path) : prog (world FS) Z :=
  fun w =>
    match subprocess_run cmd cwd (w_fs w) with
    | Some (returncode, fs', lines) =>
        (Return returncode,
         {| w_fs := fs'; w_out := (w_out w ++ map ChildLine lines)%list;
            w_spawned := (w_spawned w ++ [cmd])%list |})
    | None => (Raise OSError, w)
    end.

(** [collect_protocols] *)
Definition collect_protocols (filters : list string)
  : prog (world FS) (list string) :=
  let* found := check_exists EXTRACTED_ROOT in
  if negb found
  then raise FileNotFoundError_extracted
  else
    let* normalized_filters := lift (normalize_filters ∅ filters) in
    let* names := iterdir EXTRACTED_ROOT in
    let* dirs := keep_dirs EXTRACTED_ROOT names in
    let year_month_dirs := sorted dirs in
    for_each
      (fun month_dir protocols =>
         if negb (bool_decide (normalized_filters = ∅))
            && negb (bool_decide (month_dir ∈ normalized_filters))
         then ret protocols
         else
           let month_path := joinpath EXTRACTED_ROOT month_dir in
           let* entries := iterdir month_path in
           let* protocol_dirs := keep_dirs month_path (sorted entries) in
           ret (protocols ++ protocol_dirs)%list)
      year_month_dirs [].

(** [build_command]; a [Path] is always true, so [--deploy] is always
    passed. *)
Definition build_command (project : string)
    (template_path deploy_path output_path : Path)
    (extra_vars : list string) : list string :=
  ([sys_executable; path_str GENERATE_CONFIG;
    "--project"; project;
    "--template"; path_str template_path;
    "--output"; path_str output_path]
   ++ ["--deploy"; path_str deploy_path]
   ++ flat_map (fun kv => ["--var"; kv]) extra_vars)%list.

(** The template the driver settles on for a protocol (lines 169 to
    173): the generated one, or the fallback when only that exists. *)
Definition resolve_template (protocol project_key : string)
  : prog (world FS) Path :=
  let template_path :=
    joinpath (joinpath GENERATED_ROOT protocol)
      (project_key ++ "_dynamic.json.tmpl") in
  let* found := check_exists template_path in
  if negb found then
    let fallback_path :=
      joinpath TEMPLATE_FALLBACK_ROOT (project_key ++ "_dynamic.json.tmpl") in
    let* fallback_found := check_exists fallback_path in
    ret (if fallback_found then fallback_path else template_path)
  else ret template_path.

Definition deploy_path_of (protocol : string) : Path :=
  joinpath
    (joinpath
       (joinpath (joinpath (joinpath PROJECT_ROOT "test") protocol) "scripts")
       "data")
    "deployment.json".

Definition output_path_of (project_key : string) : Path :=
  joinpath OUTPUT_ROOT (project_key ++ ".json").

(** The body of the loop of [main] (lines 168 to 217). *)
Definition process_protocol (args : Namespace) (protocol : string)
    (t : tally) : prog (world FS) tally :=
  let project_key := protocol_to_key protocol in
  let* template_path := resolve_template protocol project_key in
  let deploy_path := deploy_path_of protocol in
  let output_path := output_path_of project_key in
  let* template_found := check_exists template_path in
  if negb template_found then
    let* _ := log (args_quiet args)
                (TemplateMissing protocol (path_str template_path)) in
    ret (count_failed t)
  else
  let* output_found := check_exists output_path in
  if output_found && negb (args_force args) then
    let* _ := log (args_quiet args) (OutputExists (path_str output_path)) in
    ret (count_skipped t)
  else
    let cmd :=
      build_command project_key template_path deploy_path output_path
        (args_var args) in
    if args_dry_run args then
      let* _ := log (args_quiet args) (DryRun cmd) in
      ret (count_success t)
    else
      let* _ := log (args_quiet args) (Generating cmd) in
      let* returncode := run cmd PROJECT_ROOT in
      if returncode =? 0 then ret (count_success t)
      else ret (count_failed t).

(** Lines 153 to 155: the explicit list, or the discovered one. *)
Definition protocol_source (args : Namespace)
  : prog (world FS) (list string) :=
  match parse_protocols (args_protocols args) with
  | [] => collect_protocols (args_filter args)
  | protocol_list => ret protocol_list
  end.

(** Lines 163 to 217: the loop over the protocols. *)
Definition process_all (args : Namespace) (protocol_list : list string)
  : prog (world FS) tally :=
  for_each (process_protocol args) protocol_list no_tally.

(** [main] *)
Definition main (args : Namespace) : prog (world FS) Z :=
  let* protocol_list := protocol_source args in
  match protocol_list with
  | [] => let* _ := print NoProtocolsFound in ret 1
  | _ =>
      let* _ := mkdir_parents OUTPUT_ROOT in
      let* t := process_all args protocol_list in
      let* _ := print (Summary (success t) (skipped t) (failed t)) in
      ret (if Nat.eqb (failed t) 0 then 0 else 1)
  end.

End Driver.

(** [sys.exit(main())]: the exit status of the process.  An exception that
    nothing catches ends it with status 1; the driver raises no
    [SystemExit] of its own. *)
Definition exit_status (r : outcome Z) : Z :=
  match r with
  | Return code => code
  | Raise _ => 1
  end.

End Batch.

(** ** A file system in memory

    A concrete environment on which the programs run: a map from paths
    (lists of names, from the root) to files and directories. *)

Module MemFS.

Inductive node : Type :=
| File (text : string)
| Dir.

Definition memfs : Type := gmap (list string) node.

Definition exists_ (p : list string) (fs : memfs) : bool :=
  match p with
  | [] => true
  | _ => bool_decide (is_Some (fs !! p))
  end.

Definition is_dir (p : list string) (fs : memfs) : bool :=
  match p with
  | [] => true
  | _ => match fs !! p with Some Dir => true | _ => false end
  end.

Definition read (p : list string) (fs : memfs) : option string :=
  match fs !! p with
  | Some (File text) => Some text
  | _ => None
  end.

(** Create the directories [done ++ [x1]], [done ++ [x1; x2]], ... that do
    not exist yet; fail on a file in the way. *)
Fixpoint mkdirs (done todo : list string) (fs : memfs) : option memfs :=
  match todo with
  | [] => Some fs
  | name :: todo' =>
      let dir := (done ++ [name])%list in
      match fs !! dir with
      | Some (File _) => None
      | Some Dir => mkdirs dir todo' fs
      | None => mkdirs dir todo' (<[dir := Dir]> fs)
      end
  end.

Definition mkdir_parents (p : list string) (fs : memfs) : option memfs :=
  mkdirs [] p fs.

Definition write (p : list string) (text : string) (fs : memfs)
  : option memfs :=
  if is_dir (removelast p) fs && negb (is_dir p fs)
  then Some (<[p := File text]> fs) else None.

Definition entries (p : list string) (fs : memfs) : option (list string) :=
  if is_dir p fs then
    Some (omap (fun k => if decide (removelast k = p) then last k else None)
            (map fst (map_to_list fs)))
  else None.

(** A path written as text: the names between slashes. *)
Definition parse_path (s : string) : list string :=
  List.filter nonempty (split "/" s).

Definition show_path (p : list string) : string :=
  "/" ++ String.concat "/" p.

(** The generator on this file system; paths are kept normal. *)
Definition gen_os : Gen.GenOS memfs :=
  {| Gen.os_path_exists := fun p fs => exists_ (parse_path p) fs;
     Gen.os_path_normpath := fun p => p;
     Gen.read_text := fun p fs => read (parse_path p) fs;
     Gen.write_text := fun p text fs => write (parse_path p) text fs;
     Gen.mkdir_parent_of :=
       fun p fs => mkdir_parents (removelast (parse_path p)) fs |}.

(** [stat] fails on a path with a name of more than 255 characters. *)
Definition stat_ok (p : list string) : bool :=
  forallb (fun name => Nat.leb (String.length name) 255) p.

(** The driver on this file system, with a given behaviour of the child
    process. *)
Definition batch_os
    (child : list string -> memfs -> option (Z * memfs * list string))
  : Batch.BatchOS (list string) memfs :=
  {| Batch.joinpath := fun p name => (p ++ [name])%list;
     Batch.path_str := show_path;
     Batch.path_exists :=
       fun p fs => if stat_ok p then Some (exists_ p fs) else None;
     Batch.path_is_dir :=
       fun p fs => if stat_ok p then Some (is_dir p fs) else None;
     Batch.path_iterdir := entries;
     Batch.path_mkdir_parents := mkdir_parents;
     Batch.subprocess_run := fun cmd _ fs => child cmd fs |}.

(** A child process that writes and prints nothing and ends with a given
    code. *)
Definition idle_child (code : Z)
  : list string -> memfs -> option (Z * memfs * list string) :=
  fun _ fs => Some (code, fs, []).

(** [str.title] on ASCII text: a letter becomes upper case after a
    character that is not a letter, and lower case after a letter. *)
Definition is_ascii_letter (c : ascii) : bool :=
  let n := N_of_ascii c in
  ((65 <=? n) && (n <=? 90) || (97 <=? n) && (n <=? 122))%N.

Definition ascii_upper_char (c : ascii) : ascii :=
  let n := N_of_ascii c in
  if ((97 <=? n) && (n <=? 122))%N then ascii_of_N (n - 32) else c.

Fixpoint title_from (previous_is_cased : bool) (s : string) : string :=
  match s with
  | EmptyString => EmptyString
  | String c s' =>
      String
        (if previous_is_cased then py_lower_char c else ascii_upper_char c)
        (title_from (is_ascii_letter c) s')
  end.

Definition ascii_title (s : string) : string := title_from false s.

(** A Python library for the examples: [json.loads] knows the texts the
    examples render and rejects every other text; [str] is that of
    booleans and integers; [json.dumps], and [str] of a float or of a
    container, which no example reaches, give the empty text. *)
Definition example_lib (known : list (string * json)) : Gen.PyLib :=
  {| Gen.json_loads :=
       fun text =>
         snd <$> List.find (fun kv => String.eqb (fst kv) text) known;
     Gen.json_dumps := fun _ => EmptyString;
     Gen.py_str :=
       fun v =>
         match v with
         | JBool true => "True"
         | JBool false => "False"
         | JInt n => pretty n
         | _ => EmptyString
         end;
     Gen.py_title := ascii_title |}.

End MemFS.

(** ** Concrete runs *)

Module Examples.
Import MemFS.

Definition quote : string := String (ascii_of_nat 34) EmptyString.

(** The scenario of the precedence property: a deployment file, the
    default vars of a project and one override. *)
Definition scenario_deploy : gmap string json := {[ "a" := JStr "1" ]}.
Definition scenario_defaults : gmap string json :=
  {[ "a" := JStr "2"; "b" := JStr "3" ]}.
Definition scenario_var : list string := ["b=4"].

Definition deployment_text : string :=
  "{" ++ quote ++ "a" ++ quote ++ ": " ++ quote ++ "1" ++ quote ++ "}".

(** The scenario of a whole rendering: a template with two placeholders
    and an empty string in a list, the text it renders to and the value
    of that text. *)
Definition list_template : string :=
  "{" ++ quote ++ "id" ++ quote ++ ":" ++ quote ++ "${project_id}" ++ quote
  ++ "," ++ quote ++ "list" ++ quote ++ ":[" ++ quote ++ "${a}" ++ quote
  ++ "," ++ quote ++ quote ++ "]}".

Definition list_rendered : string :=
  "{" ++ quote ++ "id" ++ quote ++ ":" ++ quote ++ "x" ++ quote
  ++ "," ++ quote ++ "list" ++ quote ++ ":[" ++ quote ++ "y" ++ quote
  ++ "," ++ quote ++ quote ++ "]}".

Definition list_parsed : json :=
  JObj [("id", JStr "x"); ("list", JArr [JStr "y"; JStr EmptyString])].

Definition lib : Gen.PyLib :=
  example_lib [("[]", JArr []);
               (deployment_text, JObj [("a", JStr "1")]);
               (list_rendered, list_parsed)].

Definition demo_defaults : Gen.project_defaults :=
  {| Gen.pd_deploy := None; Gen.pd_template := None; Gen.pd_output := None;
     Gen.pd_vars := Some scenario_defaults |}.

Definition scenario_world : Gen.world memfs :=
  {| Gen.w_fs := {[ ["deployment.json"] := File deployment_text ]};
     Gen.w_out := [] |}.

Definition scenario_mapping : gmap string json :=
  {[ "a" := JStr "2"; "b" := JStr "4";
     "project_id" := JStr "demo-dynamic";
     "project_name" := JStr "Demo Project (Dynamic)";
     "config_path" := JStr "out.json" ]}.

(** A template with one placeholder, and no deployment file. *)
Definition address_template : string :=
  "{" ++ quote ++ "address" ++ quote ++ ": "
  ++ quote ++ "${address}" ++ quote ++ "}".

Definition gen_fs : memfs :=
  {[ ["templates"] := Dir;
     ["templates"; "foo.json.tmpl"] := File address_template ]}.

Definition gen_world : Gen.world memfs :=
  {| Gen.w_fs := gen_fs; Gen.w_out := [] |}.

Definition gen_args : Gen.Namespace :=
  {| Gen.args_project := "foo";
     Gen.args_deploy := Some "deployment.json";
     Gen.args_template := Some "templates/foo.json.tmpl";
     Gen.args_output := None;
     Gen.args_var := [] |}.

(** The driver installed in [/repo/autopath], with the generated
    template of one protocol and no output directory yet. *)
Definition install : Batch.Install (list string) :=
  {| Batch.SCRIPT_DIR := ["repo"; "autopath"];
     Batch.PROJECT_ROOT := ["repo"];
     Batch.sys_executable := "/usr/bin/python3" |}.

Definition configs_dir : list string :=
  ["repo"; "autopath"; "pkg"; "invariants"; "configs"].

Definition batch_fs : memfs :=
  {[ ["repo"] := Dir;
     ["repo"; "autopath"] := Dir;
     ["repo"; "generated"] := Dir;
     ["repo"; "generated"; "Foo_exp"] := Dir;
     ["repo"; "generated"; "Foo_exp"; "foo_dynamic.json.tmpl"]
       := File "{}" ]}.

Definition batch_world (fs : memfs) : Batch.world memfs :=
  {| Batch.w_fs := fs; Batch.w_out := []; Batch.w_spawned := [] |}.

Definition batch_args (protocols : list string) (force dry_run : bool)
  : Batch.Namespace :=
  {| Batch.args_filter := [];
     Batch.args_protocols := Some protocols;
     Batch.args_var := [];
     Batch.args_force := force;
     Batch.args_dry_run := dry_run;
     Batch.args_quiet := false |}.

(** The same tree once a first run has made the output. *)
Definition batch_fs_done : memfs :=
  <[ ["repo"; "autopath"; "pkg"; "invariants"; "configs"; "foo.json"]
       := File "{}" ]>
    (<[ configs_dir := Dir ]>
       (<[ ["repo"; "autopath"; "pkg"; "invariants"] := Dir ]>
          (<[ ["repo"; "autopath"; "pkg"] := Dir ]> batch_fs))).

(** The driver on these trees, with a child that ends with code 0. *)
Definition run_main (args : Batch.Namespace) (fs : memfs)
  : outcome Z * Batch.world memfs :=
  @Batch.main _ _ (batch_os (idle_child 0)) install args (batch_world fs).

Definition run_protocol (args : Batch.Namespace) (protocol : string)
    (fs : memfs) : outcome Batch.tally * Batch.world memfs :=
  @Batch.process_protocol _ _ (batch_os (idle_child 0)) install args
    protocol Batch.no_tally (batch_world fs).

End Examples.

(** ** Predicates of the properties *)

Module Shape.

(** No array of the value, at any depth, has the empty string as an
    element. *)
Fixpoint no_empty_items (v : json) : bool :=
  match v with
  | JArr items =>
      forallb (fun item => negb (is_empty_str item) && no_empty_items item)
        items
  | JObj fields => forallb (fun '(_, x) => no_empty_items x) fields
  | _ => true
  end.

(** A string that does not begin with white space. *)
Definition head_ok (s : string) : bool :=
  match s with
  | EmptyString => true
  | String c _ => negb (py_isspace c)
  end.

(** A character other than a given one. *)
Definition is_not (sep : ascii) (c : ascii) : bool := negb (Ascii.eqb c sep).

(** A [--filter] value that [collect_protocols] accepts: seven characters
    with a hyphen as the fifth. *)
Definition is_year_month (item : string) : bool :=
  Nat.eqb (String.length item) 7
  && bool_decide (String.get 4 item = Some "-"%char).

(** The errors of [main] of the generator that come from its input: a
    malformed [--var], no template, a placeholder left in the text, text
    that is not JSON. *)
Definition is_input_error (e : exn) : bool :=
  match e with
  | ValueError_kv _ | ValueError_placeholder | JSONDecodeError
  | SystemExit _ => true
  | _ => false
  end.

End Shape.
Import Shape.

(** ** Further concrete runs *)

Module Runs.
Import MemFS.

(** A run of the generator that reaches its end: the template with two
    placeholders, both given by [--var]. *)
Definition list_fs : memfs :=
  {[ ["templates"] := Dir;
     ["templates"; "list.json.tmpl"] := File Examples.list_template ]}.

Definition list_world : Gen.world memfs :=
  {| Gen.w_fs := list_fs; Gen.w_out := [] |}.

Definition list_args : Gen.Namespace :=
  {| Gen.args_project := "demo";
     Gen.args_deploy := None;
     Gen.args_template := Some "templates/list.json.tmpl";
     Gen.args_output := Some "out/list.json";
     Gen.args_var := ["project_id=x"; "a=y"] |}.

Definition list_run : outcome unit * Gen.world memfs :=
  @Gen.main _ gen_os Examples.lib list_args list_world.

(** The same arguments with a [--var] that has no equals sign. *)
Definition bad_var_args : Gen.Namespace :=
  {| Gen.args_project := "demo";
     Gen.args_deploy := None;
     Gen.args_template := Some "templates/list.json.tmpl";
     Gen.args_output := Some "out/list.json";
     Gen.args_var := ["project_id"] |}.

Definition bad_var_run : outcome unit * Gen.world memfs :=
  @Gen.main _ gen_os Examples.lib bad_var_args list_world.

(** A config with six contracts. *)
Definition contracts_config : json :=
  JObj [("contracts",
         JArr [JStr "0x01"; JStr "0x02"; JStr "0x03"; JStr "0x04";
               JStr "0x05"; JStr "0x06"])].

Definition summary_run : outcome unit * Gen.world memfs :=
  @Gen.print_summary _ Examples.lib "out/list.json" contracts_config
    list_world.

(** A run of [build_mapping] with a deployment path that does not
    exist. *)
Definition mapping_run
  : outcome (gmap string json) * Gen.world memfs :=
  @Gen.build_mapping _ gen_os Examples.lib "demo" Gen.no_defaults
    (Some "deployment.json") "out/list.json" ["a=y"] list_world.

(** A tree of extracted contracts: two months, the first with a
    protocol directory and a file, the second with a protocol
    directory. *)
Definition extracted : list string :=
  ["repo"; "DeFiHackLabs"; "extracted_contracts"].

Definition extracted_fs : memfs :=
  {[ ["repo"] := Dir;
     ["repo"; "DeFiHackLabs"] := Dir;
     extracted := Dir;
     (extracted ++ ["2024-01"])%list := Dir;
     (extracted ++ ["2024-01"; "Foo_exp"])%list := Dir;
     (extracted ++ ["2024-01"; "notes.txt"])%list := File "notes";
     (extracted ++ ["2024-02"])%list := Dir;
     (extracted ++ ["2024-02"; "Bar"])%list := Dir ]}.

Definition collect_run (filters : list string)
  : outcome (list string) * Batch.world memfs :=
  @Batch.collect_protocols _ _ (batch_os (idle_child 0)) Examples.install
    filters (Examples.batch_world extracted_fs).

(** The tree of the driver with its output directory, and a real run over
    it with a child that ends with a given code. *)
Definition real_run (code : Z) (args : Batch.Namespace)
  : outcome Z * Batch.world memfs :=
  @Batch.main _ _ (batch_os (idle_child code)) Examples.install args
    (Examples.batch_world Examples.batch_fs_done).


Definition real_loop (code : Z) (args : Batch.Namespace)
    (protocols : list string)
  : outcome Batch.tally * Batch.world memfs :=
  @Batch.process_all _ _ (batch_os (idle_child code)) Examples.install
    args protocols (Examples.batch_world Examples.batch_fs_done).

Definition quiet_args (protocols : list string) : Batch.Namespace :=
  {| Batch.args_filter := [];
     Batch.args_protocols := Some protocols;
     Batch.args_var := [];
     Batch.args_force := false;
     Batch.args_dry_run := false;
     Batch.args_quiet := true |}.




(** A protocol name of 256 characters. *)
Definition long_name : string := string_of_list_ascii (repeat "a"%char 256).

End Runs.

(** * Properties *)

(** ** Strings *)

Section string_facts.

Local Ltac each_char c := destruct c as [[] [] [] [] [] [] [] []].

Lemma key_char_of_lower (c : ascii) :
  is_key_char
    (let c' := py_lower_char c in if Ascii.eqb c' " " then "_"%char else c')
  = true.
Proof. each_char c; reflexivity. Qed.

Lemma key_char_fixed (c : ascii) :
  is_key_char c = true ->
  py_lower_char c = c /\ (if Ascii.eqb c " " then "_"%char else c) = c.
Proof.
  unfold is_key_char. intros [Hl Hs]%andb_true_iff.
  apply Ascii.eqb_eq in Hl. apply negb_true_iff in Hs.
  by rewrite Hs.
Qed.

Lemma str_map_length f s : String.length (str_map f s) = String.length s.
Proof. induction s as [|c s IH]; simpl; congruence. Qed.

Lemma str_map_map f g s :
  str_map f (str_map g s) = str_map (fun c => f (g c)) s.
Proof. induction s as [|c s IH]; simpl; congruence. Qed.

Lemma str_map_fixed f p s :
  (forall c, p c = true -> f c = c) ->
  str_forallb p s = true -> str_map f s = s.
Proof.
  intros Hf. induction s as [|c s IH]; simpl; [done|].
  intros [Hc Hs]%andb_true_iff. by rewrite (Hf c Hc), IH.
Qed.

Lemma str_forallb_map p f s :
  (forall c, p (f c) = true) -> str_forallb p (str_map f s) = true.
Proof.
  intros Hf. induction s as [|c s IH]; simpl; [done|]. by rewrite Hf, IH.
Qed.

Lemma str_forallb_substring p n s :
  str_forallb p s = true -> str_forallb p (String.substring 0 n s) = true.
Proof.
  revert n. induction s as [|c s IH]; intros [|n]; simpl; try done.
  intros [Hc Hs]%andb_true_iff. by rewrite Hc, IH.
Qed.

Lemma substring_length_le n s :
  (String.length (String.substring 0 n s) <= Nat.min n (String.length s))%nat.
Proof.
  revert n. induction s as [|c s IH]; intros [|n]; simpl; try lia.
  specialize (IH n). lia.
Qed.

Lemma lstrip_length s : (String.length (lstrip s) <= String.length s)%nat.
Proof.
  induction s as [|c s IH]; simpl; [lia|].
  destruct (py_isspace c); simpl; lia.
Qed.

Lemma lstrip_same_length s :
  String.length (lstrip s) = String.length s -> lstrip s = s.
Proof.
  destruct s as [|c s]; simpl; [done|].
  destruct (py_isspace c); [|done].
  pose proof (lstrip_length s). lia.
Qed.

Lemma rstrip_length s : (String.length (rstrip s) <= String.length s)%nat.
Proof.
  induction s as [|c s IH]; simpl; [lia|].
  destruct (rstrip s); [destruct (py_isspace c)|]; simpl in *; lia.
Qed.

Lemma rstrip_same_length s :
  String.length (rstrip s) = String.length s -> rstrip s = s.
Proof.
  induction s as [|c s IH]; simpl; [done|].
  destruct (rstrip s) as [|d r] eqn:Hr.
  - destruct (py_isspace c); simpl; [lia|].
    destruct s; simpl; [done|lia].
  - simpl in *. intros Hlen. f_equal. apply IH. lia.
Qed.

Lemma strip_length s : (String.length (strip s) <= String.length s)%nat.
Proof.
  unfold strip. pose proof (rstrip_length (lstrip s)).
  pose proof (lstrip_length s). lia.
Qed.

Lemma strip_same_length s :
  String.length (strip s) = String.length s -> strip s = s.
Proof.
  unfold strip. intros Hlen.
  pose proof (rstrip_length (lstrip s)). pose proof (lstrip_length s).
  assert (lstrip s = s) as Hl by (apply lstrip_same_length; lia).
  rewrite Hl in *. by apply rstrip_same_length.
Qed.

Lemma endswith_length s suffix :
  endswith s suffix = true -> (String.length suffix <= String.length s)%nat.
Proof.
  induction s as [|c s IH]; cbn [endswith].
  - rewrite orb_false_r. intros Heq%String.eqb_eq. by subst.
  - intros [Heq%String.eqb_eq | Hs]%orb_true_iff.
    + by subst.
    + specialize (IH Hs). simpl. lia.
Qed.

End string_facts.

(** ** The project key *)

Section project_key.
Import Batch.

Lemma str_forallb_lstrip p s :
  str_forallb p s = true -> str_forallb p (lstrip s) = true.
Proof.
  induction s as [|c s IH]; simpl; [done|].
  intros [Hc Hs]%andb_true_iff.
  destruct (py_isspace c); simpl; [auto|]. by rewrite Hc, Hs.
Qed.

Lemma str_forallb_rstrip p s :
  str_forallb p s = true -> str_forallb p (rstrip s) = true.
Proof.
  induction s as [|c s IH]; simpl; [done|].
  intros [Hc Hs]%andb_true_iff. specialize (IH Hs).
  destruct (rstrip s) as [|d r].
  - destruct (py_isspace c); simpl; [done|]. by rewrite Hc.
  - change (p c && str_forallb p (String d r) = true). by rewrite Hc, IH.
Qed.

(** What [lower] and [replace] do to a string of key characters:
    nothing. *)
Lemma replace_lower_fixed s :
  str_forallb is_key_char s = true -> replace " " "_" (lower s) = s.
Proof.
  intros Hs. unfold replace, lower. rewrite str_map_map.
  apply (str_map_fixed _ is_key_char); [|done].
  intros c Hc. destruct (key_char_fixed c Hc) as [-> ->]. done.
Qed.

Lemma protocol_to_key_chars x :
  str_forallb is_key_char (protocol_to_key x) = true.
Proof.
  unfold protocol_to_key.
  assert (str_forallb is_key_char (replace " " "_" (lower (strip x))) = true)
    as Hz.
  { unfold replace, lower. rewrite str_map_map.
    apply str_forallb_map. intros c. apply key_char_of_lower. }
  destruct (endswith _ _); [|done].
  by apply str_forallb_substring.
Qed.

(** On a string of key characters the derivation strips the white space
    around it and then one suffix. *)
Lemma protocol_to_key_on_key y :
  str_forallb is_key_char y = true ->
  protocol_to_key y
  = if endswith (strip y) "_exp" then drop_last 4 (strip y) else strip y.
Proof.
  intros Hy. unfold protocol_to_key.
  rewrite replace_lower_fixed; [done|].
  unfold strip. by apply str_forallb_rstrip, str_forallb_lstrip.
Qed.

Lemma drop_last_shorter s :
  endswith s "_exp" = true ->
  (String.length (drop_last 4 s) < String.length s)%nat.
Proof.
  intros Hs%endswith_length. simpl in Hs. unfold drop_last.
  pose proof (substring_length_le (String.length s - 4) s). lia.
Qed.

Example protocol_to_key_Foo_EXP : protocol_to_key "Foo_EXP" = "foo".
Proof. reflexivity. Qed.

Example protocol_to_key_Bar_Baz : protocol_to_key "Bar Baz" = "bar_baz".
Proof. reflexivity. Qed.

(** C5, as the specification states it, fails: the derivation removes
    one [_exp] suffix, so a name that ends in two of them needs two
    passes. *)
Lemma protocol_to_key_twice_differs :
  protocol_to_key (protocol_to_key "a_exp_exp")
  <> protocol_to_key "a_exp_exp".
Proof. vm_compute. discriminate. Qed.

(** C5, amended: deriving the key again changes nothing exactly when the
    key does not end in [_exp] and has no white space around it. *)
Theorem protocol_to_key_idempotent_iff (x : string) :
  protocol_to_key (protocol_to_key x) = protocol_to_key x
  <-> endswith (protocol_to_key x) "_exp" = false
      /\ strip (protocol_to_key x) = protocol_to_key x.
Proof.
  pose proof (protocol_to_key_chars x) as Hk.
  rewrite (protocol_to_key_on_key _ Hk).
  set (y := protocol_to_key x) in *.
  split.
  - intros Heq.
    assert (strip y = y) as Hs.
    { apply strip_same_length. pose proof (strip_length y).
      destruct (endswith (strip y) "_exp") eqn:He.
      - pose proof (drop_last_shorter _ He). rewrite Heq in *. lia.
      - by rewrite Heq. }
    rewrite Hs in Heq. split; [|done].
    destruct (endswith y "_exp") eqn:He; [|done].
    pose proof (drop_last_shorter _ He). rewrite Heq in *. lia.
  - intros [He Hs]. by rewrite Hs, He.
Qed.

Lemma protocol_to_key_idempotent_iff_witness :
  protocol_to_key (protocol_to_key "Foo_EXP") = protocol_to_key "Foo_EXP".
Proof.
  apply (proj2 (protocol_to_key_idempotent_iff "Foo_EXP")).
  split; reflexivity.
Defined.

End project_key.

(** ** The cleanup pass *)

Section cleanup.

(** Cleaning a value neither makes nor removes an empty string. *)
Lemma is_empty_str_cleanup v : is_empty_str (cleanup_config v) = is_empty_str v.
Proof. by destruct v. Qed.

Lemma filter_map_cleanup items :
  List.filter (fun item => negb (is_empty_str item)) (map cleanup_config items)
  = map cleanup_config
      (List.filter (fun item => negb (is_empty_str item)) items).
Proof.
  induction items as [|x items IH]; simpl; [done|].
  rewrite is_empty_str_cleanup.
  destruct (is_empty_str x); simpl; by rewrite IH.
Qed.

Lemma filter_keep_twice (items : list json) :
  List.filter (fun item => negb (is_empty_str item))
    (List.filter (fun item => negb (is_empty_str item)) items)
  = List.filter (fun item => negb (is_empty_str item)) items.
Proof.
  induction items as [|x items IH]; simpl; [done|].
  destruct (is_empty_str x) eqn:Hx; simpl; [done|]. by rewrite Hx, IH.
Qed.

Lemma map_cleanup_twice items :
  Forall (fun v => cleanup_config (cleanup_config v) = cleanup_config v)
    items ->
  map cleanup_config (map cleanup_config items) = map cleanup_config items.
Proof.
  induction 1 as [|x items Hx _ IH]; simpl; [done|]. by rewrite Hx, IH.
Qed.

Lemma cleanup_fields_twice (fields : list (string * json)) :
  Forall (fun kv => cleanup_config (cleanup_config kv.2) = cleanup_config kv.2)
    fields ->
  map (fun '(k, v) => (k, cleanup_config v))
    (map (fun '(k, v) => (k, cleanup_config v)) fields)
  = map (fun '(k, v) => (k, cleanup_config v)) fields.
Proof.
  induction 1 as [|[k v] fields Hv _ IH]; simpl in *; [done|].
  by rewrite Hv, IH.
Qed.

Lemma cleanup_fields_keys (fields : list (string * json)) :
  map fst (map (fun '(k, v) => (k, cleanup_config v)) fields) = map fst fields.
Proof.
  induction fields as [|[k v] fields IH]; simpl; [done|]. by rewrite IH.
Qed.

Lemma cleanup_config_twice v :
  cleanup_config (cleanup_config v) = cleanup_config v.
Proof.
  induction v as [| | | | |items IH|fields IH] using json_nested_ind;
    try reflexivity.
  - cbn [cleanup_config]. f_equal.
    rewrite !filter_map_cleanup, filter_keep_twice.
    rewrite <- !filter_map_cleanup. f_equal. by apply map_cleanup_twice.
  - cbn [cleanup_config]. f_equal. by apply cleanup_fields_twice.
Qed.

Lemma cleanup_fields_values (fields : list (string * json)) :
  map snd (map (fun '(k, v) => (k, cleanup_config v)) fields)
  = map cleanup_config (map snd fields).
Proof.
  induction fields as [|[k v] fields IH]; simpl; [done|]. by rewrite IH.
Qed.

(** What the cleanup returns has no empty string in any array, below
    arrays and below objects alike, and a value that has none is returned
    as it is. *)
Lemma no_empty_items_cleanup v : no_empty_items (cleanup_config v) = true.
Proof.
  induction v as [| | | | |items IH|fields IH] using json_nested_ind;
    try reflexivity.
  - cbn [cleanup_config no_empty_items].
    induction IH as [|x items Hx _ IHitems]; simpl; [done|].
    destruct (is_empty_str (cleanup_config x)) eqn:Hempty; simpl; [done|].
    by rewrite Hempty, Hx.
  - cbn [cleanup_config no_empty_items].
    induction IH as [|[k x] fields Hx _ IHfields]; simpl in *; [done|].
    by rewrite Hx.
Qed.

Lemma cleanup_no_empty_items v :
  no_empty_items v = true -> cleanup_config v = v.
Proof.
  induction v as [| | | | |items IH|fields IH] using json_nested_ind;
    try reflexivity.
  - cbn [cleanup_config no_empty_items]. intros Hitems. f_equal.
    induction IH as [|x items Hx _ IHitems]; simpl in *; [done|].
    apply andb_true_iff in Hitems as [[Hempty Hclean]%andb_true_iff Hrest].
    rewrite (Hx Hclean). apply negb_true_iff in Hempty.
    rewrite Hempty. simpl. by rewrite (IHitems Hrest).
  - cbn [cleanup_config no_empty_items]. intros Hfields. f_equal.
    induction IH as [|[k x] fields Hx _ IHfields]; simpl in *; [done|].
    apply andb_true_iff in Hfields as [Hclean Hrest].
    by rewrite (Hx Hclean), (IHfields Hrest).
Qed.

(** C9: the cleanup pass is idempotent; in an array it drops exactly the
    elements that are the empty string and cleans the others; in an
    object it keeps every key, in order, and cleans every value; it
    returns any other value as it is; at no depth of what it returns,
    below arrays or below objects, does an array have the empty string as
    an element. *)
Theorem cleanup_config_idempotent :
  (forall v, cleanup_config (cleanup_config v) = cleanup_config v)
  /\ (forall items,
        cleanup_config (JArr items)
        = JArr (map cleanup_config
                  (List.filter (fun item => negb (is_empty_str item)) items)))
  /\ (forall fields,
        exists fields',
          cleanup_config (JObj fields) = JObj fields'
          /\ map fst fields' = map fst fields
          /\ map snd fields' = map cleanup_config (map snd fields))
  /\ (forall v,
        match v with
        | JArr _ | JObj _ => True
        | _ => cleanup_config v = v
        end)
  /\ (forall v, no_empty_items (cleanup_config v) = true).
Proof.
  split; [exact cleanup_config_twice|]. split; [|split; [|split]].
  - intros items. cbn [cleanup_config]. by rewrite filter_map_cleanup.
  - intros fields. eexists. split; [reflexivity|]. split.
    + apply cleanup_fields_keys.
    + apply cleanup_fields_values.
  - by intros [].
  - exact no_empty_items_cleanup.
Qed.

End cleanup.

(** ** Template substitution *)

Section template.

Implicit Types (mapping : gmap string string) (s rest name : string).

Lemma span_id_length s : (String.length (span_id s).2 <= String.length s)%nat.
Proof.
  induction s as [|c s IH]; simpl; [lia|].
  destruct (is_id_char c); simpl; [|lia].
  destruct (span_id s); simpl in *. lia.
Qed.

Lemma match_identifier_length s name rest :
  match_identifier s = Some (name, rest) ->
  (String.length rest <= String.length s)%nat.
Proof.
  destruct s as [|c s]; simpl; [done|].
  destruct (is_id_start c); [|done]. intros [= Heq].
  pose proof (span_id_length (String c s)) as Hlen.
  simpl in Hlen. rewrite Heq in Hlen. simpl in *. lia.
Qed.

(** The text that follows a match is no longer than the text the match
    was tried on. *)
Lemma match_delimiter_length s :
  match match_delimiter s with
  | Escaped r | Named _ r | Braced _ r =>
      (String.length r <= String.length s)%nat
  | Invalid => True
  end.
Proof.
  destruct s as [|c s]; [done|]. cbn [match_delimiter].
  destruct (Ascii.eqb c "$"); [simpl; lia|].
  destruct (match_identifier (String c s)) as [[name rest]|] eqn:Hm.
  { by apply match_identifier_length in Hm. }
  cbn [match_braced]. destruct (Ascii.eqb c "{"); [|done].
  destruct (match_identifier s) as [[name [|d rest]]|] eqn:Hs; try done.
  destruct (Ascii.eqb d "}"); [|done].
  apply match_identifier_length in Hs. simpl in *. lia.
Qed.

(** Fuel beyond the length of the text changes nothing. *)
Lemma sub_fuel mapping n :
  forall s f1 f2,
    (String.length s <= n)%nat ->
    (String.length s <= f1)%nat -> (String.length s <= f2)%nat ->
    sub mapping f1 s = sub mapping f2 s.
Proof.
  induction n as [|n IH]; intros s f1 f2 Hn H1 H2.
  - destruct s; simpl in Hn; [|lia]. by destruct f1, f2.
  - destruct s as [|c rest]; [by destruct f1, f2|].
    destruct f1 as [|f1]; [simpl in H1; lia|].
    destruct f2 as [|f2]; [simpl in H2; lia|].
    simpl in Hn, H1, H2. cbn [sub].
    pose proof (match_delimiter_length rest) as Hlen.
    destruct (Ascii.eqb c "$").
    + destruct (match_delimiter rest) as [r|name r|name r|];
        f_equal; apply IH; lia.
    + f_equal. apply IH; lia.
Qed.

(** One step of the scan, without fuel. *)
Lemma safe_substitute_step mapping c rest :
  safe_substitute mapping (String c rest)
  = if Ascii.eqb c "$" then
      match match_delimiter rest with
      | Escaped r => "$" ++ safe_substitute mapping r
      | Named name r =>
          convert mapping name ("$" ++ name) ++ safe_substitute mapping r
      | Braced name r =>
          convert mapping name ("${" ++ name ++ "}")
          ++ safe_substitute mapping r
      | Invalid => "$" ++ safe_substitute mapping rest
      end
    else String c (safe_substitute mapping rest).
Proof.
  unfold safe_substitute. cbn [String.length sub].
  pose proof (match_delimiter_length rest) as Hlen.
  destruct (Ascii.eqb c "$"); [|done].
  destruct (match_delimiter rest) as [r|name r|name r|]; [| | |done];
    f_equal; apply (sub_fuel mapping (String.length rest)); lia.
Qed.

Lemma span_id_app name rest :
  str_forallb is_id_char name = true ->
  span_id (name ++ String "}" rest) = (name, String "}" rest).
Proof.
  induction name as [|c name IH]; simpl; [done|].
  intros [Hc Hn]%andb_true_iff. by rewrite Hc, (IH Hn).
Qed.

Lemma match_delimiter_braced name rest :
  is_identifier name = true ->
  match_delimiter ("{" ++ name ++ "}" ++ rest) = Braced name rest.
Proof.
  destruct name as [|c name]; [done|]. cbn [is_identifier].
  intros [Hc Hn]%andb_true_iff.
  assert (span_id (String c name ++ String "}" rest)
          = (String c name, String "}" rest)) as Hspan.
  { apply span_id_app. simpl. unfold is_id_char at 1. by rewrite Hc, Hn. }
  change ("{" ++ String c name ++ "}" ++ rest)
    with (String "{" (String c (name ++ String "}" rest))).
  cbn [match_delimiter match_identifier match_braced].
  change (Ascii.eqb "{" "$") with false.
  change (is_id_start "{") with false.
  change (Ascii.eqb "{" "{") with true. cbv iota.
  rewrite Hc.
  change (String c (name ++ String "}" rest))
    with (String c name ++ String "}" rest).
  rewrite Hspan. done.
Qed.

Lemma span_id_stop name rest :
  str_forallb is_id_char name = true ->
  at_id_char rest = false ->
  span_id (name ++ rest) = (name, rest).
Proof.
  intros Hname Hrest. induction name as [|c name IH]; simpl in *.
  - destruct rest as [|d rest]; [done|]. simpl in *. by rewrite Hrest.
  - apply andb_true_iff in Hname as [Hc Hn]. by rewrite Hc, (IH Hn).
Qed.

Lemma id_start_not_delimiter c :
  is_id_start c = true -> Ascii.eqb c "$" = false.
Proof. by destruct c as [[] [] [] [] [] [] [] []]. Qed.

Lemma match_delimiter_named name rest :
  is_identifier name = true ->
  at_id_char rest = false ->
  match_delimiter (name ++ rest) = Named name rest.
Proof.
  destruct name as [|c name]; [done|]. cbn [is_identifier].
  intros [Hc Hn]%andb_true_iff Hrest.
  assert (span_id (String c name ++ rest) = (String c name, rest)) as Hspan.
  { apply span_id_stop; [|done]. simpl. unfold is_id_char at 1.
    by rewrite Hc, Hn. }
  change (String c name ++ rest) with (String c (name ++ rest)) in *.
  cbn [match_delimiter match_identifier].
  by rewrite (id_start_not_delimiter c Hc), Hc, Hspan.
Qed.

(** A placeholder without braces at the head of the text, when the
    identifier ends there. *)
Lemma safe_substitute_named mapping name rest :
  is_identifier name = true ->
  at_id_char rest = false ->
  safe_substitute mapping ("$" ++ name ++ rest)
  = convert mapping name ("$" ++ name) ++ safe_substitute mapping rest.
Proof.
  intros Hid Hrest.
  change ("$" ++ name ++ rest) with (String "$" (name ++ rest)).
  rewrite safe_substitute_step.
  change (Ascii.eqb "$" "$") with true. cbv iota.
  by rewrite match_delimiter_named.
Qed.

(** A braced placeholder at the head of the text: the value of its key,
    or the placeholder itself when the key is absent. *)
Lemma safe_substitute_braced mapping name rest :
  is_identifier name = true ->
  safe_substitute mapping ("${" ++ name ++ "}" ++ rest)
  = convert mapping name ("${" ++ name ++ "}")
    ++ safe_substitute mapping rest.
Proof.
  intros Hid.
  change ("${" ++ name ++ "}" ++ rest)
    with (String "$" ("{" ++ name ++ "}" ++ rest)).
  rewrite safe_substitute_step.
  change (Ascii.eqb "$" "$") with true. cbv iota.
  by rewrite match_delimiter_braced.
Qed.

End template.

(** ** Rendering *)

Section rendering.
Import Gen.
Context `{PyLib}.

(** C3: substitution is safe, a placeholder with an absent key, braced or
    not, stays in the text and nothing is raised; rendering fails with
    the error of an incomplete template exactly when the substituted text
    still holds the marker; without the marker the text goes to the JSON
    parser, whose failure is the error of the rendering and whose result
    is cleaned. *)
Theorem render_outcome (template_text : string) (mapping : gmap string json) :
  let string_mapping := to_text <$> mapping in
  let rendered := safe_substitute string_mapping template_text in
  (forall name rest,
      is_identifier name = true ->
      mapping !! name = None ->
      safe_substitute string_mapping ("${" ++ name ++ "}" ++ rest)
      = ("${" ++ name ++ "}") ++ safe_substitute string_mapping rest)
  /\ (forall name rest,
        is_identifier name = true ->
        at_id_char rest = false ->
        mapping !! name = None ->
        safe_substitute string_mapping ("$" ++ name ++ rest)
        = ("$" ++ name) ++ safe_substitute string_mapping rest)
  /\ (render template_text mapping = Raise ValueError_placeholder
      <-> contains "${" rendered = true)
  /\ (contains "${" rendered = false ->
      render template_text mapping
      = match json_loads rendered with
        | None => Raise JSONDecodeError
        | Some data => Return (cleanup_config data)
        end).
Proof.
  cbv zeta. split; [|split; [|split]].
  - intros name rest Hid Hname.
    rewrite safe_substitute_braced by done.
    unfold convert. by rewrite lookup_fmap, Hname.
  - intros name rest Hid Hrest Hname.
    rewrite safe_substitute_named by done.
    unfold convert. by rewrite lookup_fmap, Hname.
  - unfold render.
    destruct (contains "${" _); [by split|].
    split; [|done]. destruct (json_loads _); discriminate.
  - intros Hmarker. unfold render. by rewrite Hmarker.
Qed.

(** The scenario of the specification: both placeholders are filled and
    the empty string leaves the list. *)
Example render_list_template :
  safe_substitute {[ "project_id" := "x"; "a" := "y" ]} Examples.list_template
  = Examples.list_rendered
  /\ @render Examples.lib Examples.list_template
       {[ "project_id" := JStr "x"; "a" := JStr "y" ]}
     = Return (JObj [("id", JStr "x"); ("list", JArr [JStr "y"])]).
Proof. split; reflexivity. Qed.

End rendering.

Lemma render_outcome_witness :
  safe_substitute (@Gen.to_text Examples.lib <$> ∅)
    ("${" ++ "address" ++ "}" ++ "]")
  = ("${" ++ "address" ++ "}")
    ++ safe_substitute (@Gen.to_text Examples.lib <$> ∅) "]"
  /\ safe_substitute (@Gen.to_text Examples.lib <$> ∅)
       ("$" ++ "address" ++ "]")
     = ("$" ++ "address")
       ++ safe_substitute (@Gen.to_text Examples.lib <$> ∅) "]"
  /\ @Gen.render Examples.lib "[]" ∅ = Return (JArr []).
Proof.
  split; [|split].
  - apply (proj1 (@render_outcome Examples.lib "[]" ∅) "address" "]");
      reflexivity.
  - apply (proj1 (proj2 (@render_outcome Examples.lib "[]" ∅)) "address" "]");
      reflexivity.
  - apply (proj2 (proj2 (proj2 (@render_outcome Examples.lib "[]" ∅)))).
    reflexivity.
Defined.

(** ** The substitution mapping *)

Section mapping.
Import Gen.
Context {FS : Type} `{GenOS FS} `{PyLib}.

Lemma lookup_setdefault key value (mapping : gmap string json) k :
  setdefault key value mapping !! k
  = match mapping !! k with
    | Some v => Some v
    | None => if decide (k = key) then Some value else None
    end.
Proof.
  unfold setdefault. destruct (mapping !! key) eqn:Hkey.
  - destruct (mapping !! k) eqn:Hk; [done|].
    case_decide; [congruence|done].
  - rewrite lookup_insert. case_decide; subst.
    + rewrite Hkey. by rewrite decide_True.
    + destruct (mapping !! k); [done|]. by rewrite decide_False.
Qed.


Lemma lookup_with_fallbacks project output_path mapping k :
  with_fallbacks project output_path mapping !! k
  = match mapping !! k with
    | Some v => Some v
    | None => fallback_of project output_path k
    end.
Proof.
  unfold with_fallbacks, fallback_of. rewrite !lookup_setdefault.
  destruct (mapping !! k); [done|].
  repeat case_decide; subst; done.
Qed.


End mapping.


(** C1, as the specification states it, fails: for key [a] the default
    var of the project replaces the field of the deployment file, so the
    merged mapping is not the one of the scenario. *)
Lemma merged_scenario_differs :
  Gen.parse_kv Examples.scenario_var = Return {[ "b" := "4" ]}
  /\ Gen.merged_mapping Examples.scenario_deploy Examples.scenario_defaults
       {[ "b" := "4" ]}
     <> {[ "a" := JStr "1"; "b" := JStr "4" ]}.
Proof.
  split; [reflexivity|].
  intros Heq. apply (f_equal (fun m => m !! "a")) in Heq.
  vm_compute in Heq. discriminate.
Qed.

(** C1, amended: with deploy mapping [a = 1], default vars [a = 2],
    [b = 3] and override [b=4], the merged mapping is [a = 2], [b = 4]:
    the override wins over the default var, and the default var over the
    deployment file. *)
Theorem merged_scenario :
  Gen.parse_kv Examples.scenario_var = Return {[ "b" := "4" ]}
  /\ Gen.merged_mapping Examples.scenario_deploy Examples.scenario_defaults
       {[ "b" := "4" ]}
     = {[ "a" := JStr "2"; "b" := JStr "4" ]}.
Proof. split; reflexivity. Qed.

(** [mapping.update] on deployment files that hold no dict: a list of
    pairs gives its pairs, the empty list and the empty string give
    nothing, a string of two characters inside a list is a pair; a
    string that is not empty, and a number, are errors. *)
Example dict_update_json_values :
  Gen.dict_update_json ∅ (JArr [JArr [JStr "a"; JInt 1]; JStr "bc"])
  = Return {[ "a" := JInt 1; "b" := JStr "c" ]}
  /\ Gen.dict_update_json ∅ (JArr []) = Return ∅
  /\ Gen.dict_update_json ∅ (JStr EmptyString) = Return ∅
  /\ Gen.dict_update_json ∅ (JStr "ab") = Raise ValueError_update
  /\ Gen.dict_update_json ∅ (JArr [JStr "abc"]) = Raise ValueError_update
  /\ Gen.dict_update_json ∅ (JArr [JInt 1]) = Raise TypeError
  /\ Gen.dict_update_json ∅ (JInt 3) = Raise TypeError.
Proof. repeat split; reflexivity. Qed.

(** C2: the run of [main] with a deployment path that does not exist and
    a template that has a placeholder for a field of that file.  The
    warning is printed, the placeholder stays in the rendered text, and
    the run ends with the error of an incomplete template: nothing is
    written. *)
Theorem missing_deploy_leaves_placeholder (lib : Gen.PyLib) :
  @Gen.main _ MemFS.gen_os lib Examples.gen_args Examples.gen_world
  = (Raise ValueError_placeholder,
     {| Gen.w_fs := Examples.gen_fs;
        Gen.w_out := [Gen.WarnDeployMissing "deployment.json"] |}).
Proof. reflexivity. Qed.

(** ** The batch driver *)

(** The body of the loop, one call of the operating system after the
    other. *)
Ltac driver_step :=
  match goal with
  | |- context [Batch.path_exists ?p ?fs] =>
      destruct (Batch.path_exists p fs) as [[]|] eqn:?
  | |- context [Batch.subprocess_run ?c ?d ?fs] =>
      destruct (Batch.subprocess_run c d fs) as [[[? ?] ?]|] eqn:?
  | |- context [if Batch.args_quiet ?a then _ else _] =>
      destruct (Batch.args_quiet a)
  | |- context [if Batch.args_dry_run ?a then _ else _] =>
      destruct (Batch.args_dry_run a) eqn:?
  | |- context [if negb (Batch.args_force ?a) then _ else _] =>
      destruct (Batch.args_force a) eqn:?
  | |- context [if ?c =? 0 then _ else _] => destruct (c =? 0)
  end;
  cbn [negb andb Batch.w_fs Batch.w_out Batch.w_spawned].

Ltac driver_cases :=
  unfold Batch.process_protocol, Batch.resolve_template, bind,
    Batch.check_exists, Batch.log, Batch.run, Batch.print, ret;
  repeat driver_step.

Section driver.
Import Batch.
Context {Path FS : Type} `{BatchOS Path FS} `{Install Path}.

Implicit Types (args : Namespace) (w : world FS) (t : tally).

(** The state a protocol leaves when no child is run: the file system
    and the list of spawned commands are those before it. *)
Lemma log_frame quiet m w :
  exists w', log quiet m w = (Return tt, w')
             /\ w_fs w' = w_fs w /\ w_spawned w' = w_spawned w.
Proof. destruct quiet; eexists; split; reflexivity || (split; reflexivity). Qed.

(** C7: a protocol for which neither the generated template nor the
    fallback one is there adds one to the counter of failures and leaves
    the two other counters as they were; a protocol that has a template
    and whose output is there, without [--force], adds one to the counter
    of skipped protocols and leaves the two others.  In both cases the
    file system is the one before the protocol and no child is run.  A
    path is there, or is not, by what [Path.exists] answers. *)
Theorem process_protocol_failed_or_skipped args protocol t w :
  let project_key := protocol_to_key protocol in
  let generated :=
    joinpath (joinpath GENERATED_ROOT protocol)
      (project_key ++ "_dynamic.json.tmpl") in
  let fallback :=
    joinpath TEMPLATE_FALLBACK_ROOT (project_key ++ "_dynamic.json.tmpl") in
  (path_exists generated (w_fs w) = Some false ->
   path_exists fallback (w_fs w) = Some false ->
   exists t' w',
     process_protocol args protocol t w = (Return t', w')
     /\ failed t' = S (failed t)
     /\ success t' = success t /\ skipped t' = skipped t
     /\ w_fs w' = w_fs w /\ w_spawned w' = w_spawned w)
  /\ (path_exists generated (w_fs w) = Some true
      \/ (path_exists generated (w_fs w) = Some false
          /\ path_exists fallback (w_fs w) = Some true) ->
      path_exists (output_path_of project_key) (w_fs w) = Some true ->
      args_force args = false ->
      exists t' w',
        process_protocol args protocol t w = (Return t', w')
        /\ skipped t' = S (skipped t)
        /\ success t' = success t /\ failed t' = failed t
        /\ w_fs w' = w_fs w /\ w_spawned w' = w_spawned w).
Proof.
  cbv zeta. split.
  - intros Hgen Hfall.
    unfold process_protocol, resolve_template, bind, check_exists, ret.
    rewrite Hgen. cbn [negb]. rewrite Hfall. rewrite Hgen. cbn [negb].
    destruct (log_frame (args_quiet args)
                (TemplateMissing protocol
                   (path_str (joinpath (joinpath GENERATED_ROOT protocol)
                      (protocol_to_key protocol ++ "_dynamic.json.tmpl"))))
                w) as (w' & -> & Hfs & Hsp).
    exists (count_failed t), w'. by repeat split.
  - intros Htmpl Hout Hforce.
    unfold process_protocol, resolve_template, bind, check_exists, ret.
    destruct Htmpl as [Hgen|[Hgen Hfall]].
    + rewrite Hgen. cbn [negb]. rewrite Hgen. cbn [negb].
      rewrite Hout, Hforce. cbn [negb andb].
      destruct (log_frame (args_quiet args)
                  (OutputExists
                     (path_str (output_path_of (protocol_to_key protocol))))
                  w) as (w' & -> & Hfs & Hsp).
      exists (count_skipped t), w'. by repeat split.
    + rewrite Hgen. cbn [negb]. rewrite Hfall. rewrite Hfall. cbn [negb].
      rewrite Hout, Hforce. cbn [negb andb].
      destruct (log_frame (args_quiet args)
                  (OutputExists
                     (path_str (output_path_of (protocol_to_key protocol))))
                  w) as (w' & -> & Hfs & Hsp).
      exists (count_skipped t), w'. by repeat split.
Qed.

(** Every pass through the body of the loop adds one to one counter. *)
Lemma process_protocol_counts args protocol t w t' w' :
  process_protocol args protocol t w = (Return t', w') ->
  total t' = S (total t).
Proof.
  unfold total. driver_cases; intros [= <- <-]; simpl; lia.
Qed.

Lemma for_each_counts args protocol_list :
  forall t w t' w',
    for_each (process_protocol args) protocol_list t w = (Return t', w') ->
    total t' = (total t + length protocol_list)%nat.
Proof.
  induction protocol_list as [|protocol l IH]; intros t w t' w'; simpl.
  - intros [= <- <-]. lia.
  - unfold bind at 1.
    destruct (process_protocol args protocol t w) as [[t1|e] w1] eqn:Hstep;
      [|done].
    intros Hrest. apply IH in Hrest.
    apply process_protocol_counts in Hstep. lia.
Qed.

(** The loop ends, whatever the protocols, when no call of the operating
    system raises: [Path.exists] answers and the child is run. *)
Lemma for_each_returns args protocol_list :
  (forall p fs, is_Some (path_exists p fs)) ->
  (forall cmd cwd fs, is_Some (subprocess_run cmd cwd fs)) ->
  forall t w,
  exists t' w',
    for_each (process_protocol args) protocol_list t w = (Return t', w').
Proof.
  intros Hexists Hchild.
  induction protocol_list as [|protocol l IH]; intros t w; simpl.
  - by eexists _, _.
  - unfold bind at 1.
    assert (exists t1 w1,
               process_protocol args protocol t w = (Return t1, w1))
      as (t1 & w1 & ->); [|apply IH].
    driver_cases; try (eexists _, _; reflexivity).
    all: match goal with
         | Hnone : path_exists ?p ?fs = None |- _ =>
             destruct (Hexists p fs) as [? ?]; congruence
         | Hnone : subprocess_run ?c ?d ?fs = None |- _ =>
             destruct (Hchild c d fs) as [? ?]; congruence
         end.
Qed.

(** In a dry run the body of the loop, however it ends, leaves the file
    system as it was and runs no child. *)
Lemma dry_run_step_frame args protocol t w r w' :
  args_dry_run args = true ->
  process_protocol args protocol t w = (r, w') ->
  w_fs w' = w_fs w /\ w_spawned w' = w_spawned w.
Proof.
  intros Hdry. driver_cases; intros [= <- <-]; done.
Qed.

Lemma dry_run_loop_frame args protocol_list :
  args_dry_run args = true ->
  forall t w r w',
    for_each (process_protocol args) protocol_list t w = (r, w') ->
    w_fs w' = w_fs w /\ w_spawned w' = w_spawned w.
Proof.
  intros Hdry.
  induction protocol_list as [|protocol l IH]; intros t w r w'; simpl.
  - by intros [= <- <-].
  - unfold bind at 1.
    destruct (process_protocol args protocol t w) as [[t1|e] w1] eqn:Hstep.
    + intros Hrest. apply IH in Hrest as [-> ->].
      by apply dry_run_step_frame in Hstep.
    + intros [= <- <-]. by apply dry_run_step_frame in Hstep.
Qed.

(** The runs of [main], by what its three stages do. *)
Lemma main_cases args w :
  match protocol_source args w with
  | (Raise e, w1) => main args w = (Raise e, w1)
  | (Return [], w1) => (main args w).1 = Return 1
  | (Return protocol_list, w1) =>
      match mkdir_parents OUTPUT_ROOT w1 with
      | (Raise e, w2) => main args w = (Raise e, w2)
      | (Return _, w2) =>
          match process_all args protocol_list w2 with
          | (Raise e, w3) => main args w = (Raise e, w3)
          | (Return t, w3) =>
              (main args w).1
              = Return (if Nat.eqb (failed t) 0 then 0 else 1)
              /\ w_out (main args w).2
                 = (w_out w3
                    ++ [Summary (success t) (skipped t) (failed t)])%list
          end
      end
  end.
Proof.
  unfold main, bind.
  destruct (protocol_source args w) as [[[|protocol l]|e] w1];
    [done| |done].
  destruct (mkdir_parents OUTPUT_ROOT w1) as [[[]|e] w2]; [|done].
  by destruct (process_all args (protocol :: l) w2) as [[t|e] w3].
Qed.

(** C10: a run of [main] that finds protocols and reaches its end prints
    a summary whose three counts add up to the number of protocols;
    they are the counters the loop ends with. *)
Theorem summary_counts_every_protocol args w code w' protocol_list w1 :
  main args w = (Return code, w') ->
  protocol_source args w = (Return protocol_list, w1) ->
  protocol_list <> [] ->
  exists t w2 w3,
    mkdir_parents OUTPUT_ROOT w1 = (Return tt, w2)
    /\ process_all args protocol_list w2 = (Return t, w3)
    /\ w_out w' = (w_out w3
                   ++ [Summary (success t) (skipped t) (failed t)])%list
    /\ (success t + skipped t + failed t)%nat = length protocol_list.
Proof.
  intros Hmain Hsource Hne. pose proof (main_cases args w) as Hcases.
  rewrite Hsource in Hcases.
  destruct protocol_list as [|protocol l]; [done|].
  destruct (mkdir_parents OUTPUT_ROOT w1) as [[[]|e] w2]; [|congruence].
  destruct (process_all args (protocol :: l) w2) as [[t|e] w3] eqn:Hloop;
    [|congruence].
  destruct Hcases as [_ Hout]. rewrite Hmain in Hout.
  exists t, w2, w3. repeat split; try done.
  apply for_each_counts in Hloop. unfold total in Hloop. simpl in *. lia.
Qed.

(** C8: the exit status is 0 or 1; it is 0 exactly when protocols were
    found, the run reached its end and the counter of failures is 0,
    whatever the counter of skipped protocols; a run that finds no
    protocol returns 1. *)
Theorem exit_status_zero_iff args w :
  (exit_status (main args w).1 = 0 \/ exit_status (main args w).1 = 1)
  /\ (exit_status (main args w).1 = 0 <->
      exists protocol_list w1 w2 t w3,
        protocol_source args w = (Return protocol_list, w1)
        /\ protocol_list <> []
        /\ mkdir_parents OUTPUT_ROOT w1 = (Return tt, w2)
        /\ process_all args protocol_list w2 = (Return t, w3)
        /\ failed t = 0%nat)
  /\ (forall w1,
        protocol_source args w = (Return [], w1) ->
        (main args w).1 = Return 1).
Proof.
  pose proof (main_cases args w) as Hcases.
  destruct (protocol_source args w) as [[protocol_list|e] w1].
  2: { rewrite Hcases. simpl. split; [by right|]. split; [|done].
       split; [done|]. by intros (? & ? & ? & ? & ? & [=] & _). }
  destruct protocol_list as [|protocol l].
  { rewrite Hcases. simpl. split; [by right|]. split; [|done].
    split; [done|]. by intros (? & ? & ? & ? & ? & [= <- <-] & ? & _). }
  destruct (mkdir_parents OUTPUT_ROOT w1) as [[[]|e] w2] eqn:Hmk.
  2: { rewrite Hcases. simpl. split; [by right|]. split; [|done].
       split; [done|].
       intros (? & ? & ? & ? & ? & [= <- <-] & _ & Hmk' & _).
       rewrite Hmk in Hmk'. done. }
  destruct (process_all args (protocol :: l) w2) as [[t|e] w3] eqn:Hloop.
  2: { rewrite Hcases. simpl. split; [by right|]. split; [|done].
       split; [done|].
       intros (? & ? & ? & ? & ? & [= <- <-] & _ & Hmk' & Hloop' & _).
       rewrite Hmk in Hmk'. injection Hmk' as <-.
       rewrite Hloop in Hloop'. done. }
  destruct Hcases as [-> _]. simpl.
  split; [destruct (failed t); simpl; auto|]. split; [|done]. split.
  - intros Hcode. exists (protocol :: l), w1, w2, t, w3.
    repeat split; try done. by destruct (failed t).
  - intros (? & ? & ? & ? & ? & [= <- <-] & _ & Hmk' & Hloop' & Hfailed).
    rewrite Hmk in Hmk'. injection Hmk' as <-.
    rewrite Hloop in Hloop'. injection Hloop' as <- <-.
    by rewrite Hfailed.
Qed.

End driver.

(** ** The driver on the file system in memory *)

Lemma process_protocol_failed_or_skipped_witness :
  (exists t' w',
      Examples.run_protocol (Examples.batch_args ["bar"] false false) "bar"
        Examples.batch_fs
      = (Return t', w')
      /\ Batch.failed t' = 1%nat
      /\ Batch.success t' = 0%nat /\ Batch.skipped t' = 0%nat
      /\ Batch.w_fs w' = Examples.batch_fs /\ Batch.w_spawned w' = [])
  /\ (exists t' w',
         Examples.run_protocol (Examples.batch_args ["Foo_exp"] false false)
           "Foo_exp" Examples.batch_fs_done
         = (Return t', w')
         /\ Batch.skipped t' = 1%nat
         /\ Batch.success t' = 0%nat /\ Batch.failed t' = 0%nat
         /\ Batch.w_fs w' = Examples.batch_fs_done
         /\ Batch.w_spawned w' = []).
Proof.
  split.
  - apply (proj1 (@process_protocol_failed_or_skipped _ _
                    (MemFS.batch_os (MemFS.idle_child 0)) Examples.install
                    (Examples.batch_args ["bar"] false false) "bar"
                    Batch.no_tally (Examples.batch_world Examples.batch_fs)));
      reflexivity.
  - apply (proj2 (@process_protocol_failed_or_skipped _ _
                    (MemFS.batch_os (MemFS.idle_child 0)) Examples.install
                    (Examples.batch_args ["Foo_exp"] false false) "Foo_exp"
                    Batch.no_tally
                    (Examples.batch_world Examples.batch_fs_done)));
      [left; reflexivity|reflexivity|reflexivity].
Defined.

Lemma summary_counts_every_protocol_witness :
  exists t w2 w3,
    @Batch.mkdir_parents _ _ (MemFS.batch_os (MemFS.idle_child 0))
      (@Batch.OUTPUT_ROOT _ _ (MemFS.batch_os (MemFS.idle_child 0))
         Examples.install)
      (Examples.batch_world Examples.batch_fs)
    = (Return tt, w2)
    /\ @Batch.process_all _ _ (MemFS.batch_os (MemFS.idle_child 0))
         Examples.install (Examples.batch_args ["Foo_exp"; "bar"] false true)
         ["Foo_exp"; "bar"] w2
       = (Return t, w3)
    /\ Batch.w_out
         (Examples.run_main (Examples.batch_args ["Foo_exp"; "bar"] false true)
            Examples.batch_fs).2
       = (Batch.w_out w3
          ++ [Batch.Summary (Batch.success t) (Batch.skipped t)
                (Batch.failed t)])%list
    /\ (Batch.success t + Batch.skipped t + Batch.failed t)%nat
       = length ["Foo_exp"; "bar"].
Proof.
  apply (@summary_counts_every_protocol _ _
           (MemFS.batch_os (MemFS.idle_child 0)) Examples.install
           (Examples.batch_args ["Foo_exp"; "bar"] false true)
           (Examples.batch_world Examples.batch_fs) 1
           (Examples.run_main
              (Examples.batch_args ["Foo_exp"; "bar"] false true)
              Examples.batch_fs).2
           ["Foo_exp"; "bar"] (Examples.batch_world Examples.batch_fs)).
  - reflexivity.
  - reflexivity.
  - discriminate.
Defined.

Lemma exit_status_zero_iff_witness :
  Batch.exit_status
    (Examples.run_main (Examples.batch_args ["Foo_exp"] false false)
       Examples.batch_fs_done).1
  = 0.
Proof.
  apply (proj2 (proj1 (proj2
           (@exit_status_zero_iff _ _ (MemFS.batch_os (MemFS.idle_child 0))
              Examples.install (Examples.batch_args ["Foo_exp"] false false)
              (Examples.batch_world Examples.batch_fs_done))))).
  eexists _, _, _, _, _.
  split; [reflexivity|].
  split; [discriminate|].
  split; [reflexivity|].
  split; [reflexivity|].
  reflexivity.
Defined.

(** C6: a dry run over one protocol whose template exists, started where
    the output directory does not exist yet.  The protocol is counted as
    a success and no child is run, but the output directory is there
    after the run: [main] makes it before the loop, dry run or not. *)
Theorem dry_run_makes_output_directory :
  (Examples.run_main (Examples.batch_args ["Foo_exp"] false true)
     Examples.batch_fs).1
  = Return 0
  /\ Batch.w_spawned
       (Examples.run_main (Examples.batch_args ["Foo_exp"] false true)
          Examples.batch_fs).2
     = []
  /\ MemFS.exists_ Examples.configs_dir Examples.batch_fs = false
  /\ MemFS.exists_ Examples.configs_dir
       (Batch.w_fs
          (Examples.run_main (Examples.batch_args ["Foo_exp"] false true)
             Examples.batch_fs).2)
     = true.
Proof. repeat split; reflexivity. Qed.


(** A protocol whose name is too long for the file system: the check of
    its template raises, and the run, here a dry run, ends with that
    error after the output directory has been made; the protocol is
    counted nowhere. *)
Example long_name_ends_the_run :
  (Examples.run_main (Examples.batch_args [Runs.long_name] false true)
     Examples.batch_fs).1
  = Raise OSError
  /\ (Examples.run_protocol (Examples.batch_args [Runs.long_name] false true)
        Runs.long_name Examples.batch_fs).1
     = Raise OSError
  /\ MemFS.exists_ Examples.configs_dir
       (Batch.w_fs
          (Examples.run_main
             (Examples.batch_args [Runs.long_name] false true)
             Examples.batch_fs).2)
     = true.
Proof. repeat split; reflexivity. Qed.

(** * Further properties *)

(** ** Stripping and splitting *)

Lemma head_ok_lstrip s : head_ok (lstrip s) = true.
Proof.
  induction s as [|c s IH]; simpl; [done|].
  destruct (py_isspace c) eqn:Hc; [done|]. simpl. by rewrite Hc.
Qed.

Lemma lstrip_head_ok s : head_ok s = true -> lstrip s = s.
Proof.
  destruct s as [|c s]; simpl; [done|].
  by intros ->%negb_true_iff.
Qed.

Lemma rstrip_rstrip s : rstrip (rstrip s) = rstrip s.
Proof.
  induction s as [|c s IH]; simpl; [done|].
  destruct (rstrip s) as [|d r] eqn:Hr.
  - destruct (py_isspace c) eqn:Hc; simpl; [done|]. by rewrite Hc.
  - change (rstrip (String c (String d r))) with
      (match rstrip (String d r) with
       | EmptyString =>
           if py_isspace c then EmptyString else String c EmptyString
       | t => String c t
       end).
    by rewrite IH.
Qed.

Lemma head_ok_rstrip s : head_ok s = true -> head_ok (rstrip s) = true.
Proof.
  destruct s as [|c s]; simpl; [done|]. intros Hc.
  destruct (rstrip s); [|done].
  apply negb_true_iff in Hc. rewrite Hc. simpl. by rewrite Hc.
Qed.

Lemma strip_strip s : strip (strip s) = strip s.
Proof.
  unfold strip.
  rewrite (lstrip_head_ok (rstrip (lstrip s))).
  - apply rstrip_rstrip.
  - apply head_ok_rstrip, head_ok_lstrip.
Qed.

Lemma contains_char sep s :
  contains (String sep EmptyString) s = negb (str_forallb (is_not sep) s).
Proof.
  induction s as [|c s IH]; [done|].
  cbn [contains str_forallb String.prefix]. rewrite IH. unfold is_not.
  destruct (Ascii.ascii_dec sep c) as [->|Hne].
  - rewrite Ascii.eqb_refl. by destruct s.
  - assert (Ascii.eqb c sep = false) as ->
      by (apply Ascii.eqb_neq; congruence).
    done.
Qed.

Lemma split_first_none sep s :
  split_first sep s = None <-> str_forallb (is_not sep) s = true.
Proof.
  induction s as [|c s IH]; simpl; [done|]. unfold is_not at 1.
  destruct (Ascii.eqb c sep); simpl; [done|].
  rewrite <- IH. by destruct (split_first sep s) as [[??]|].
Qed.

Lemma split_first_app sep k v :
  str_forallb (is_not sep) k = true ->
  split_first sep (k ++ String sep v) = Some (k, v).
Proof.
  induction k as [|c k IH]; simpl.
  - intros _. by rewrite Ascii.eqb_refl.
  - unfold is_not at 1. intros [Hc Hk]%andb_true_iff.
    apply negb_true_iff in Hc.
    change (String c k ++ String sep v) with (String c (k ++ String sep v)).
    cbn [split_first]. by rewrite Hc, (IH Hk).
Qed.

Lemma split_first_some sep s k v :
  split_first sep s = Some (k, v) ->
  s = k ++ String sep v /\ str_forallb (is_not sep) k = true.
Proof.
  revert k. induction s as [|c s IH]; intros k; simpl; [done|].
  destruct (Ascii.eqb_spec c sep) as [->|Hne].
  - by intros [= <- <-].
  - destruct (split_first sep s) as [[k' v']|]; [|done].
    intros [= <- <-]. destruct (IH k' eq_refl) as [-> Hk].
    split; [done|]. simpl. unfold is_not at 1.
    apply Ascii.eqb_neq in Hne. by rewrite Hne, Hk.
Qed.

(** ** [parse_kv] *)

Section more_parse_kv.
Import Gen.

Lemma parse_kv_loop_app acc l1 l2 :
  parse_kv_loop acc (l1 ++ l2)
  = match parse_kv_loop acc l1 with
    | Return m => parse_kv_loop m l2
    | Raise e => Raise e
    end.
Proof.
  revert acc. induction l1 as [|item l1 IH]; intros acc; simpl; [done|].
  by destruct (split_first "=" item) as [[k v]|].
Qed.

Lemma parse_kv_loop_returns acc pairs :
  (exists m, parse_kv_loop acc pairs = Return m)
  <-> Forall (fun item => contains "=" item = true) pairs.
Proof.
  revert acc. induction pairs as [|item pairs IH]; intros acc; simpl.
  - split; [by constructor|by eexists].
  - rewrite Forall_cons, contains_char.
    destruct (split_first "=" item) as [[k v]|] eqn:Hsplit.
    + rewrite IH.
      assert (str_forallb (is_not "=") item = false) as Hall.
      { destruct (str_forallb (is_not "=") item) eqn:Hall; [|done].
        apply split_first_none in Hall. congruence. }
      rewrite Hall. by split; [|intros [_ ?]].
    + apply split_first_none in Hsplit as ->.
      split; [by intros [m [=]]|by intros [[=] _]].
Qed.

(** X1: [parse_kv] returns exactly when every item has an equals sign;
    otherwise it raises [ValueError] for the first item that has none,
    whatever comes after it. *)
Theorem parse_kv_first_bad_item :
  (forall pairs,
      (exists m, parse_kv pairs = Return m)
      <-> Forall (fun item => contains "=" item = true) pairs)
  /\ (forall pre item post,
         Forall (fun item => contains "=" item = true) pre ->
         contains "=" item = false ->
         parse_kv (pre ++ item :: post) = Raise (ValueError_kv item)).
Proof.
  split; [intros pairs; apply parse_kv_loop_returns|].
  intros pre item post Hpre Hitem. unfold parse_kv.
  rewrite parse_kv_loop_app.
  apply (parse_kv_loop_returns ∅) in Hpre as [m ->]. simpl.
  rewrite contains_char in Hitem. apply negb_false_iff in Hitem.
  by apply split_first_none in Hitem as ->.
Qed.

Lemma parse_kv_first_bad_item_witness :
  parse_kv (["a=1"; "b = 2"] ++ "oops" :: ["c=3"])
  = Raise (ValueError_kv "oops").
Proof.
  apply (proj2 parse_kv_first_bad_item ["a=1"; "b = 2"] "oops" ["c=3"]).
  - repeat constructor.
  - reflexivity.
Defined.

(** X2: one more pair [key=value] after pairs that parse adds the binding
    of the stripped key to the stripped value to their result, replacing
    an earlier binding of that key; the pair is split at its first equals
    sign, so the value may hold further ones. *)
Theorem parse_kv_append pairs m key value :
  parse_kv pairs = Return m ->
  contains "=" key = false ->
  parse_kv (pairs ++ [key ++ "=" ++ value])
  = Return (<[strip key := strip value]> m).
Proof.
  unfold parse_kv. intros Hm Hkey. rewrite parse_kv_loop_app, Hm.
  rewrite contains_char in Hkey. apply negb_false_iff in Hkey.
  cbn [parse_kv_loop].
  change (key ++ "=" ++ value) with (key ++ String "=" value).
  by rewrite (split_first_app _ _ _ Hkey).
Qed.

Lemma parse_kv_append_witness :
  parse_kv (["a=1"] ++ [" a " ++ "=" ++ " x=y "])
  = Return (<[strip " a " := strip " x=y "]> {[ "a" := "1" ]}).
Proof.
  apply (parse_kv_append ["a=1"] {[ "a" := "1" ]} " a " " x=y ");
    reflexivity.
Defined.

Lemma parse_kv_loop_stripped pairs :
  forall acc m,
    (forall k v,
        acc !! k = Some v ->
        strip k = k /\ strip v = v) ->
    parse_kv_loop acc pairs = Return m ->
    forall k v, m !! k = Some v -> strip k = k /\ strip v = v.
Proof.
  induction pairs as [|item pairs IH]; intros acc m Hacc; simpl.
  - by intros [= <-].
  - destruct (split_first "=" item) as [[key value]|]; [|done].
    apply IH. intros k v. rewrite lookup_insert.
    case_decide; [|by apply Hacc].
    intros [= <-]. subst k. by rewrite !strip_strip.
Qed.

(** X3: no key and no value of the result of [parse_kv] has white space
    around it. *)
Theorem parse_kv_stripped pairs m k v :
  parse_kv pairs = Return m ->
  m !! k = Some v ->
  strip k = k /\ strip v = v.
Proof.
  intros Hm. apply (parse_kv_loop_stripped pairs ∅ m); [|done].
  intros k' v'. by rewrite lookup_empty.
Qed.

Lemma parse_kv_stripped_witness :
  strip "name" = "name" /\ strip "my config" = "my config".
Proof.
  apply (parse_kv_stripped ["  name =  my config "]
           {[ "name" := "my config" ]} "name" "my config"); reflexivity.
Defined.

End more_parse_kv.

(** ** Clean values *)

(** X4: what [cleanup_config] returns has no empty string in any array,
    at any depth, and the values it returns unchanged are exactly the
    values that have none. *)
Theorem cleanup_config_fixed_points (v : json) :
  no_empty_items (cleanup_config v) = true
  /\ (cleanup_config v = v <-> no_empty_items v = true).
Proof.
  split; [apply no_empty_items_cleanup|]. split.
  - intros <-. apply no_empty_items_cleanup.
  - apply cleanup_no_empty_items.
Qed.

(** ** More on substitution and rendering *)

Lemma safe_substitute_empty (mapping : gmap string string) :
  safe_substitute mapping EmptyString = EmptyString.
Proof. reflexivity. Qed.

Lemma safe_substitute_plain_prefix (mapping : gmap string string) a b :
  str_forallb (is_not "$") a = true ->
  safe_substitute mapping (a ++ b) = a ++ safe_substitute mapping b.
Proof.
  induction a as [|c a IH]; simpl; [done|]. unfold is_not at 1.
  intros [Hc Ha]%andb_true_iff. apply negb_true_iff in Hc.
  change (String c a ++ b) with (String c (a ++ b)).
  rewrite safe_substitute_step, Hc, (IH Ha). done.
Qed.

Lemma string_app_empty (s : string) : s ++ EmptyString = s.
Proof.
  induction s as [|c s IH]; [done|].
  change (String c s ++ EmptyString) with (String c (s ++ EmptyString)).
  by rewrite IH.
Qed.

(** X5: text without a dollar sign passes through the substitution
    unchanged, whatever the mapping is, and substitution starts only
    after such a prefix. *)
Theorem safe_substitute_plain_text (mapping : gmap string string) a b :
  str_forallb (is_not "$") a = true ->
  safe_substitute mapping a = a
  /\ safe_substitute mapping (a ++ b) = a ++ safe_substitute mapping b.
Proof.
  intros Ha. split; [|by apply safe_substitute_plain_prefix].
  rewrite <- (string_app_empty a) at 1.
  rewrite safe_substitute_plain_prefix by done.
  by rewrite safe_substitute_empty, string_app_empty.
Qed.

Lemma safe_substitute_plain_text_witness :
  safe_substitute {[ "a" := "y" ]} "[1, " = "[1, "
  /\ safe_substitute {[ "a" := "y" ]} ("[1, " ++ "${a}]")
     = "[1, " ++ safe_substitute {[ "a" := "y" ]} "${a}]".
Proof.
  apply (safe_substitute_plain_text {[ "a" := "y" ]} "[1, " "${a}]").
  reflexivity.
Defined.

Section more_rendering.
Import Gen.
Context `{PyLib}.

(** X6: a braced placeholder whose key is in the mapping is replaced by
    the text of its value, which is the string itself for a string and
    nothing for [None]; two dollar signs give one. *)
Theorem render_fills_placeholder (mapping : gmap string json) :
  (forall name v rest,
      is_identifier name = true ->
      mapping !! name = Some v ->
      safe_substitute (to_text <$> mapping) ("${" ++ name ++ "}" ++ rest)
      = to_text v ++ safe_substitute (to_text <$> mapping) rest)
  /\ (forall s, to_text (JStr s) = s)
  /\ to_text JNull = EmptyString
  /\ (forall rest,
         safe_substitute (to_text <$> mapping) ("$$" ++ rest)
         = "$" ++ safe_substitute (to_text <$> mapping) rest).
Proof.
  split; [|split; [done|split; [done|]]].
  - intros name v rest Hid Hname.
    rewrite safe_substitute_braced by done.
    unfold convert. by rewrite lookup_fmap, Hname.
  - intros rest.
    change ("$$" ++ rest) with (String "$" (String "$" rest)).
    by rewrite safe_substitute_step.
Qed.

(** X7: a value that rendering returns has no empty string in any array,
    and cleaning it again changes nothing. *)
Theorem render_result_clean template_text (mapping : gmap string json) v :
  render template_text mapping = Return v ->
  no_empty_items v = true /\ cleanup_config v = v.
Proof.
  unfold render. destruct (contains "${" _); [done|].
  destruct (json_loads _) as [data|]; [|done].
  intros [= <-]. split; [apply no_empty_items_cleanup|].
  apply cleanup_config_twice.
Qed.

End more_rendering.

Lemma render_fills_placeholder_witness :
  safe_substitute
    (@Gen.to_text Examples.lib <$> {[ "a" := JStr "y"; "n" := JNull ]})
    ("${" ++ "n" ++ "}" ++ "[]")
  = @Gen.to_text Examples.lib JNull
    ++ safe_substitute
         (@Gen.to_text Examples.lib <$> {[ "a" := JStr "y"; "n" := JNull ]})
         "[]".
Proof.
  apply (proj1 (@render_fills_placeholder Examples.lib
                  {[ "a" := JStr "y"; "n" := JNull ]}) "n" JNull "[]");
    reflexivity.
Defined.

Lemma render_result_clean_witness :
  no_empty_items (JObj [("id", JStr "x"); ("list", JArr [JStr "y"])]) = true
  /\ cleanup_config (JObj [("id", JStr "x"); ("list", JArr [JStr "y"])])
     = JObj [("id", JStr "x"); ("list", JArr [JStr "y"])].
Proof.
  apply (@render_result_clean Examples.lib Examples.list_template
           {[ "project_id" := JStr "x"; "a" := JStr "y" ]}).
  reflexivity.
Defined.

(** ** More on the generator *)

Section more_generator.
Import Gen.
Context {FS : Type} `{GenOS FS} `{PyLib}.

Implicit Types (w : world FS).

Lemma load_json_if_exists_frame path w :
  (load_json_if_exists path w).2 = w.
Proof.
  unfold load_json_if_exists, bind, get_fs, ret, raise.
  destruct (negb (nonempty path) || negb (os_path_exists path (w_fs w)));
    [done|].
  destruct (read_text path (w_fs w)) as [text|]; [|done].
  by destruct (json_loads text).
Qed.

(** The warning [deploy_fields] prints, if any. *)
Lemma deploy_fields_effects deploy_path w :
  w_fs (deploy_fields deploy_path w).2 = w_fs w
  /\ w_out (deploy_fields deploy_path w).2
     = (w_out w
        ++ match py_or deploy_path None with
           | Some p =>
               if os_path_exists (os_path_normpath p) (w_fs w) then []
               else [WarnDeployMissing (os_path_normpath p)]
           | None => []
           end)%list.
Proof.
  unfold deploy_fields.
  destruct (py_or deploy_path None) as [p|]; simpl; [|by rewrite app_nil_r].
  unfold bind, get_fs.
  destruct (os_path_exists (os_path_normpath p) (w_fs w)); simpl; [|done].
  pose proof (load_json_if_exists_frame (os_path_normpath p) w) as Hload.
  destruct (load_json_if_exists (os_path_normpath p) w) as [[value|e] w1];
    simpl in Hload; subst w1; unfold lift; simpl; by rewrite app_nil_r.
Qed.

Lemma build_mapping_world project defaults deploy_path output_path var w :
  (build_mapping project defaults deploy_path output_path var w).2
  = (deploy_fields deploy_path w).2.
Proof.
  unfold build_mapping, bind, lift, ret.
  destruct (deploy_fields deploy_path w) as [[deploy|e] w1]; [|done].
  by destruct (parse_kv var).
Qed.

(** X8: building the mapping never changes the file system, and prints
    one thing at most: the warning, exactly when a deployment path is
    given (and not empty) and, once normalised, does not exist. *)
Theorem build_mapping_effects project defaults deploy_path output_path var w :
  let w' := (build_mapping project defaults deploy_path output_path var w).2 in
  w_fs w' = w_fs w
  /\ w_out w'
     = (w_out w
        ++ match py_or deploy_path None with
           | Some p =>
               if os_path_exists (os_path_normpath p) (w_fs w) then []
               else [WarnDeployMissing (os_path_normpath p)]
           | None => []
           end)%list.
Proof.
  cbv zeta. rewrite build_mapping_world. apply deploy_fields_effects.
Qed.

(** X9: the mapping that [main] builds always has a value for
    [project_id], [project_name] and [config_path], so a template may use
    the three of them whatever the deployment file and the [--var] pairs
    are. *)
Theorem build_mapping_has_fallback_keys project defaults deploy_path
    output_path var w w' (mapping : gmap string json) :
  build_mapping project defaults deploy_path output_path var w
  = (Return mapping, w') ->
  is_Some (mapping !! "project_id")
  /\ is_Some (mapping !! "project_name")
  /\ is_Some (mapping !! "config_path").
Proof.
  unfold build_mapping, bind, lift, ret.
  destruct (deploy_fields deploy_path w) as [[deploy|e] w1]; [|done].
  destruct (parse_kv var) as [overrides|e]; [|done].
  intros [= <- <-]. rewrite !lookup_with_fallbacks.
  repeat split; destruct (merged_mapping _ _ _ !! _); by eexists.
Qed.

Lemma for_each_print_preview (items : list string) w :
  for_each (fun addr (_ : unit) => print (PreviewItem addr)) items tt w
  = (Return tt,
     {| w_fs := w_fs w; w_out := (w_out w ++ map PreviewItem items)%list |}).
Proof.
  revert w. induction items as [|item items IH]; intros w; simpl.
  - unfold ret. rewrite app_nil_r. by destruct w.
  - unfold bind at 1, print at 1. rewrite IH. simpl.
    by rewrite <- app_assoc.
Qed.

Lemma chars_length s : length (chars s) = String.length s.
Proof. induction s as [|c s IH]; simpl; congruence. Qed.

Lemma preview_items_length value n items count :
  py_len value = Return count ->
  preview_items value n = Return items ->
  length items = Nat.min n count.
Proof.
  destruct value; try done; simpl; intros [= <-] [= <-].
  - by rewrite length_take, chars_length.
  - by rewrite length_map, length_take.
Qed.

Lemma py_len_raises value e : py_len value = Raise e -> e = TypeError.
Proof. destruct value; simpl; by intros [=]. Qed.

Lemma preview_items_raises value n e :
  preview_items value n = Raise e -> e = TypeError.
Proof. destruct value; simpl; by intros [=]. Qed.

Lemma print_summary_kinds output_path config w :
  match print_summary output_path config w with
  | (Return _, w') => w_fs w' = w_fs w /\ exists fields, config = JObj fields
  | (Raise e, _) => is_input_error e = false
  end.
Proof.
  unfold print_summary.
  destruct config as [| | | | | |fields]; try done.
  unfold bind at 1, lift at 1.
  destruct (py_len (dict_get "contracts" fields (JArr []))) as [count|e]
    eqn:Hlen.
  2: { by apply py_len_raises in Hlen as ->. }
  unfold bind at 1, print at 1. unfold bind at 1, print at 1.
  cbn -[Nat.min Nat.eqb].
  destruct (Nat.eqb count 0); cbn -[Nat.min Nat.eqb]; [by eauto|].
  destruct (preview_items _ _) as [items|e] eqn:Hitems.
  2: { by apply preview_items_raises in Hitems as ->. }
  rewrite for_each_print_preview. cbn. by eauto.
Qed.

Lemma take_min_length {A} (n : nat) (l : list A) :
  take (Nat.min n (length l)) l = take n l.
Proof.
  destruct (Nat.le_ge_cases n (length l)) as [Hle|Hge].
  - by rewrite Nat.min_l.
  - rewrite Nat.min_r by done. by rewrite !take_ge.
Qed.

(** The lines of the preview, from the contracts of the config. *)
Lemma preview_items_first value count items :
  py_len value = Return count ->
  preview_items value (Nat.min 5 count) = Return items ->
  match value with
  | JArr contracts => items = map addr_text (take 5 contracts)
  | JStr s => items = take 5 (chars s)
  | _ => False
  end.
Proof.
  destruct value as [| | | |s|contracts|fields]; try done;
    unfold py_len, preview_items; intros Hlen Hitems.
  - assert (count = String.length s) as -> by congruence.
    assert (items = take (Nat.min 5 (String.length s)) (chars s)) as ->
      by congruence.
    by rewrite <- chars_length, take_min_length.
  - assert (count = length contracts) as -> by congruence.
    assert (items = map addr_text (take (Nat.min 5 (length contracts))
                                     contracts)) as -> by congruence.
    by rewrite take_min_length.
Qed.

(** X10: a summary that returns has left the file system as it was and
    printed the output path, the number of contracts of the config (none
    when it has no such key) and, when there are any, a heading and one
    line for each of the first five contracts, in their order: the text
    of each element of a list, each character of a string. *)
Theorem print_summary_outcome output_path config w w' :
  print_summary output_path config w = (Return tt, w') ->
  w_fs w' = w_fs w
  /\ exists fields count items,
      config = JObj fields
      /\ py_len (dict_get "contracts" fields (JArr [])) = Return count
      /\ items
         = match dict_get "contracts" fields (JArr []) with
           | JArr contracts => map addr_text (take 5 contracts)
           | JStr s => take 5 (chars s)
           | _ => []
           end
      /\ length items = Nat.min 5 count
      /\ w_out w'
         = (w_out w
            ++ [Generated output_path; ContractCount count]
            ++ (if Nat.eqb count 0 then []
                else PreviewHeader :: map PreviewItem items))%list.
Proof.
  unfold print_summary.
  destruct config as [| | | | | |fields]; try done.
  unfold bind at 1, lift at 1.
  destruct (py_len (dict_get "contracts" fields (JArr []))) as [count|e]
    eqn:Hlen; [|done].
  unfold bind at 1, print at 1. unfold bind at 1, print at 1.
  cbn -[Nat.min Nat.eqb].
  destruct (Nat.eqb count 0) eqn:Hcount; cbn -[Nat.min Nat.eqb].
  - intros [= <-]. split; [done|]. eexists fields, count, _.
    rewrite Hcount. apply Nat.eqb_eq in Hcount as ->.
    split; [done|]. split; [done|]. split; [reflexivity|]. split.
    + destruct (dict_get "contracts" fields (JArr [])) as [| | | |s|l|l];
        try done.
      * destruct s; [done|discriminate].
      * destruct l; [done|discriminate].
    + cbn. by rewrite <- app_assoc.
  - destruct (preview_items _ _) as [items|e] eqn:Hitems; [|done].
    rewrite for_each_print_preview. cbn -[Nat.min Nat.eqb].
    intros [= <-]. split; [done|]. exists fields, count, items.
    rewrite Hcount.
    pose proof (preview_items_first _ _ _ Hlen Hitems) as Hfirst.
    split; [done|]. split; [done|]. split.
    { by destruct (dict_get "contracts" fields (JArr [])). }
    split.
    + rewrite (preview_items_length _ _ _ _ Hlen Hitems). lia.
    + cbn. by rewrite <- !app_assoc.
Qed.

Lemma print_summary_no_input_error output_path config w e w' :
  print_summary output_path config w = (Raise e, w') ->
  is_input_error e = false.
Proof.
  intros Hrun. pose proof (print_summary_kinds output_path config w) as Hout.
  by rewrite Hrun in Hout.
Qed.

Lemma print_summary_fs output_path config w w' :
  print_summary output_path config w = (Return tt, w') ->
  w_fs w' = w_fs w /\ exists fields, config = JObj fields.
Proof.
  intros Hrun. pose proof (print_summary_kinds output_path config w) as Hout.
  by rewrite Hrun in Hout.
Qed.

End more_generator.

Section more_main.
Import Gen.
Context {FS : Type} `{GenOS FS} `{PyLib}.

Implicit Types (w : world FS).

Lemma build_mapping_fs project defaults deploy_path output_path var w :
  w_fs (build_mapping project defaults deploy_path output_path var w).2
  = w_fs w.
Proof. rewrite build_mapping_world. apply deploy_fields_effects. Qed.

Lemma generate_from_template_cases template_path mapping w :
  generate_from_template template_path mapping w
  = match read_text template_path (w_fs w) with
    | None => (Raise OSError, w)
    | Some template_text => (render template_text mapping, w)
    end.
Proof.
  unfold generate_from_template, bind, get_fs, lift, raise.
  by destruct (read_text template_path (w_fs w)).
Qed.

(** X11: a run of [main] that ends with an input error (a [--var]
    without equals sign, no template, a placeholder left in the text,
    text that is not JSON) has changed nothing in the file system: no
    directory is made and no output is written before the rendering has
    succeeded. *)
Theorem main_input_error_keeps_files registry args w e w' :
  main_with registry args w = (Raise e, w') ->
  is_input_error e = true ->
  w_fs w' = w_fs w.
Proof.
  unfold main_with.
  destruct (py_or (py_or (args_template args) _) None) as [template_path|].
  2: { by intros [= <- <-]. }
  unfold bind at 1.
  pose proof (build_mapping_fs (lower (args_project args))
                (default no_defaults (registry !! lower (args_project args)))
                (py_or (args_deploy args)
                   (pd_deploy
                      (default no_defaults
                         (registry !! lower (args_project args)))))
                (default
                   ("pkg/invariants/configs/" ++ lower (args_project args)
                    ++ "-dynamic.json")
                   (py_or (args_output args)
                      (py_or
                         (pd_output
                            (default no_defaults
                               (registry !! lower (args_project args))))
                         None)))
                (args_var args) w) as Hfs.
  destruct (build_mapping _ _ _ _ _ w) as [[mapping|e1] w1].
  2: { by intros [= <- <-]. }
  simpl in Hfs. unfold bind at 1. rewrite generate_from_template_cases.
  destruct (read_text template_path (w_fs w1)) as [template_text|].
  2: { by intros [= <- <-]. }
  destruct (render template_text mapping) as [config|e2].
  2: { by intros [= <- <-]. }
  unfold bind at 1, ensure_parent_dir, os_call at 1.
  destruct (mkdir_parent_of _ (w_fs w1)) as [fs1|].
  2: { by intros [= <- <-]. }
  unfold bind at 1, os_call at 1. cbn [w_fs w_out].
  destruct (write_text _ _ fs1) as [fs2|].
  2: { by intros [= <- <-]. }
  intros Hsummary Hinput.
  apply print_summary_no_input_error in Hsummary. congruence.
Qed.

(** X12: a run of [main] with a given [--output] that reaches its end has
    made the directory of the output and written there the dump of what
    the template rendered to: the template is the one of [--template], or
    of the defaults of the project when that is not given, the mapping is
    the one that [main] builds from the deployment file, the defaults and
    the [--var] pairs, and the result is a JSON object with no empty
    string in any array; nothing else has changed the file system. *)
Theorem main_writes_rendered_object registry args w w' output_path :
  main_with registry args w = (Return tt, w') ->
  args_output args = Some output_path ->
  nonempty output_path = true ->
  let project := lower (args_project args) in
  let defaults := default no_defaults (registry !! project) in
  exists template_path template_text mapping w1 fields fs1,
    py_or (py_or (args_template args) (pd_template defaults)) None
    = Some template_path
    /\ build_mapping project defaults
         (py_or (args_deploy args) (pd_deploy defaults)) output_path
         (args_var args) w
       = (Return mapping, w1)
    /\ read_text template_path (w_fs w) = Some template_text
    /\ render template_text mapping = Return (JObj fields)
    /\ no_empty_items (JObj fields) = true
    /\ mkdir_parent_of output_path (w_fs w) = Some fs1
    /\ write_text output_path (json_dumps (JObj fields)) fs1
       = Some (w_fs w').
Proof.
  unfold main_with. intros Hmain Houtput Hnonempty. cbv zeta.
  rewrite Houtput in Hmain. cbn [py_or] in Hmain.
  rewrite Hnonempty in Hmain. cbn [default from_option id] in Hmain.
  destruct (py_or (py_or (args_template args) _) None) as [template_path|];
    [|done].
  unfold bind at 1 in Hmain.
  pose proof (build_mapping_fs (lower (args_project args))
                (default no_defaults (registry !! lower (args_project args)))
                (py_or (args_deploy args)
                   (pd_deploy
                      (default no_defaults
                         (registry !! lower (args_project args)))))
                output_path (args_var args) w) as Hfs.
  destruct (build_mapping _ _ _ _ _ w) as [[mapping|e1] w1]; [|done].
  simpl in Hfs. unfold bind at 1 in Hmain.
  rewrite generate_from_template_cases in Hmain.
  destruct (read_text template_path (w_fs w1)) as [template_text|] eqn:Hread;
    [|done].
  destruct (render template_text mapping) as [config|e2] eqn:Hrender; [|done].
  unfold bind at 1, ensure_parent_dir, os_call at 1 in Hmain.
  destruct (mkdir_parent_of _ (w_fs w1)) as [fs1|] eqn:Hmkdir; [|done].
  unfold bind at 1, os_call at 1 in Hmain. cbn [w_fs w_out] in Hmain.
  destruct (write_text _ _ fs1) as [fs2|] eqn:Hwrite; [|done].
  apply print_summary_fs in Hmain as [Hfs' [fields ->]].
  cbn [w_fs] in Hfs'. rewrite Hfs in *. subst fs2.
  exists template_path, template_text, mapping, w1, fields, fs1.
  repeat split; try done.
  replace (JObj fields) with (cleanup_config (JObj fields)).
  - apply no_empty_items_cleanup.
  - unfold render in Hrender. destruct (contains "${" _); [done|].
    destruct (json_loads _) as [data|]; [|done].
    injection Hrender as <-. apply cleanup_config_twice.
Qed.

End more_main.

Lemma build_mapping_has_fallback_keys_witness :
  is_Some (Examples.scenario_mapping !! "project_id")
  /\ is_Some (Examples.scenario_mapping !! "project_name")
  /\ is_Some (Examples.scenario_mapping !! "config_path").
Proof.
  apply (@build_mapping_has_fallback_keys _ MemFS.gen_os Examples.lib "demo"
           Examples.demo_defaults (Some "deployment.json") "out.json"
           Examples.scenario_var Examples.scenario_world
           Examples.scenario_world Examples.scenario_mapping).
  reflexivity.
Defined.

Lemma main_input_error_keeps_files_witness :
  Gen.w_fs Runs.bad_var_run.2 = Gen.w_fs Runs.list_world.
Proof.
  apply (@main_input_error_keeps_files _ MemFS.gen_os Examples.lib
           Gen.DEFAULT_PROJECTS Runs.bad_var_args Runs.list_world
           (ValueError_kv "project_id") Runs.bad_var_run.2);
    reflexivity.
Defined.

Lemma main_writes_rendered_object_witness :
  exists template_path template_text mapping w1 fields fs1,
    Gen.py_or (Gen.py_or (Gen.args_template Runs.list_args) None) None
    = Some template_path
    /\ @Gen.build_mapping _ MemFS.gen_os Examples.lib "demo" Gen.no_defaults
         (Gen.py_or (Gen.args_deploy Runs.list_args) None) "out/list.json"
         (Gen.args_var Runs.list_args) Runs.list_world
       = (Return mapping, w1)
    /\ @Gen.read_text _ MemFS.gen_os template_path (Gen.w_fs Runs.list_world)
       = Some template_text
    /\ @Gen.render Examples.lib template_text mapping = Return (JObj fields)
    /\ no_empty_items (JObj fields) = true
    /\ @Gen.mkdir_parent_of _ MemFS.gen_os "out/list.json"
         (Gen.w_fs Runs.list_world)
       = Some fs1
    /\ @Gen.write_text _ MemFS.gen_os "out/list.json"
         (@Gen.json_dumps Examples.lib (JObj fields)) fs1
       = Some (Gen.w_fs Runs.list_run.2).
Proof.
  apply (@main_writes_rendered_object _ MemFS.gen_os Examples.lib
           Gen.DEFAULT_PROJECTS Runs.list_args Runs.list_world
           Runs.list_run.2 "out/list.json"); reflexivity.
Defined.

Lemma print_summary_outcome_witness :
  Gen.w_fs Runs.summary_run.2 = Gen.w_fs Runs.list_world
  /\ exists fields count items,
      Runs.contracts_config = JObj fields
      /\ Gen.py_len (Gen.dict_get "contracts" fields (JArr [])) = Return count
      /\ items
         = match Gen.dict_get "contracts" fields (JArr []) with
           | JArr contracts =>
               map (@Gen.addr_text Examples.lib) (take 5 contracts)
           | JStr s => take 5 (Gen.chars s)
           | _ => []
           end
      /\ length items = Nat.min 5 count
      /\ Gen.w_out Runs.summary_run.2
         = (Gen.w_out Runs.list_world
            ++ [Gen.Generated "out/list.json"; Gen.ContractCount count]
            ++ (if Nat.eqb count 0 then []
                else Gen.PreviewHeader :: map Gen.PreviewItem items))%list.
Proof.
  apply (@print_summary_outcome _ Examples.lib "out/list.json"
           Runs.contracts_config Runs.list_world Runs.summary_run.2).
  reflexivity.
Defined.

(** ** The list of protocols *)

Section more_protocols.
Import Batch.

Lemma add_name_spec (st : gset string * list string) name :
  NoDup st.2 ->
  (forall x, x ∈ st.1 <-> x ∈ st.2) ->
  NoDup (add_name st name).2
  /\ (forall x, x ∈ (add_name st name).1 <-> x ∈ (add_name st name).2)
  /\ (forall x, x ∈ (add_name st name).2 <-> x ∈ st.2 \/ x = name)
  /\ exists new, (add_name st name).2 = (st.2 ++ new)%list
                 /\ new `sublist_of` [name].
Proof.
  intros Hnodup Hseen. unfold add_name.
  destruct (decide (name ∈ st.1)) as [Hin|Hnotin]; simpl.
  - split; [done|]. split; [done|]. split.
    + intros x. split; [by left|]. intros [?| ->]; [done|by apply Hseen].
    + exists []. split; [by rewrite app_nil_r|apply sublist_nil_l].
  - split; [|split; [|split]].
    + apply NoDup_app. split; [done|]. split; [|apply NoDup_singleton].
      intros x Hx ->%list_elem_of_singleton. by apply Hnotin, Hseen.
    + intros x. rewrite elem_of_union, elem_of_singleton, elem_of_app,
        list_elem_of_singleton, Hseen. tauto.
    + intros x. by rewrite elem_of_app, list_elem_of_singleton.
    + by exists [name].
Qed.

Lemma foldl_add_name_spec names :
  forall st : gset string * list string,
    NoDup st.2 ->
    (forall x, x ∈ st.1 <-> x ∈ st.2) ->
    NoDup (foldl add_name st names).2
    /\ (forall x,
           x ∈ (foldl add_name st names).1
           <-> x ∈ (foldl add_name st names).2)
    /\ (forall x,
           x ∈ (foldl add_name st names).2 <-> x ∈ st.2 \/ x ∈ names)
    /\ exists new, (foldl add_name st names).2 = (st.2 ++ new)%list
                   /\ new `sublist_of` names.
Proof.
  induction names as [|name names IH]; intros st Hnodup Hseen; simpl.
  - split; [done|]. split; [done|]. split.
    + intros x. rewrite elem_of_nil. tauto.
    + exists []. by rewrite app_nil_r.
  - destruct (add_name_spec st name Hnodup Hseen)
      as (Hnodup1 & Hseen1 & Hin1 & new1 & Heq1 & Hsub1).
    destruct (IH _ Hnodup1 Hseen1)
      as (Hnodup2 & Hseen2 & Hin2 & new2 & Heq2 & Hsub2).
    split; [done|]. split; [done|]. split.
    + intros x. rewrite Hin2, Hin1, elem_of_cons. tauto.
    + exists (new1 ++ new2)%list. split.
      * by rewrite Heq2, Heq1, app_assoc.
      * by apply (sublist_app new1 [name] new2 names).
Qed.

Lemma add_entry_parts st entry :
  add_entry st entry = foldl add_name st (entry_parts entry).
Proof. unfold add_entry. by destruct entry. Qed.

Lemma foldl_add_entry_spec entries :
  forall st : gset string * list string,
    NoDup st.2 ->
    (forall x, x ∈ st.1 <-> x ∈ st.2) ->
    NoDup (foldl add_entry st entries).2
    /\ (forall x,
           x ∈ (foldl add_entry st entries).2
           <-> x ∈ st.2 \/ x ∈ flat_map entry_parts entries)
    /\ exists new, (foldl add_entry st entries).2 = (st.2 ++ new)%list
                   /\ new `sublist_of` flat_map entry_parts entries.
Proof.
  induction entries as [|entry entries IH]; intros st Hnodup Hseen; simpl.
  - split; [done|]. split.
    + intros x. rewrite elem_of_nil. tauto.
    + exists []. by rewrite app_nil_r.
  - rewrite add_entry_parts.
    destruct (foldl_add_name_spec (entry_parts entry) st Hnodup Hseen)
      as (Hnodup1 & Hseen1 & Hin1 & new1 & Heq1 & Hsub1).
    destruct (IH _ Hnodup1 Hseen1) as (Hnodup2 & Hin2 & new2 & Heq2 & Hsub2).
    split; [done|]. split.
    + intros x. rewrite Hin2, Hin1, elem_of_app. tauto.
    + exists (new1 ++ new2)%list. split.
      * by rewrite Heq2, Heq1, app_assoc.
      * by apply sublist_app.
Qed.

Lemma parse_protocols_fold entries :
  parse_protocols (Some entries) = (foldl add_entry (∅, []) entries).2.
Proof. by destruct entries. Qed.

(** X13: the protocols given by [--protocols] are the names between the
    commas of all its values, each once, in the order in which the
    values give them. *)
Theorem parse_protocols_dedup (entries : list string) :
  NoDup (parse_protocols (Some entries))
  /\ (forall name,
         name ∈ parse_protocols (Some entries)
         <-> name ∈ flat_map entry_parts entries)
  /\ parse_protocols (Some entries) `sublist_of` flat_map entry_parts entries.
Proof.
  rewrite parse_protocols_fold.
  destruct (foldl_add_entry_spec entries (∅, []))
    as (Hnodup & Hin & new & Heq & Hsub).
  - apply NoDup_nil_2.
  - intros x. simpl. by rewrite elem_of_empty, elem_of_nil.
  - split; [done|]. split.
    + intros name. rewrite Hin. simpl. rewrite elem_of_nil. tauto.
    + by rewrite Heq.
Qed.

Lemma split_no_sep sep s :
  Forall (fun p => str_forallb (is_not sep) p = true) (split sep s).
Proof.
  induction s as [|c s IH]; simpl; [by repeat constructor|].
  destruct (Ascii.eqb c sep) eqn:Hc; [by constructor|].
  destruct (split sep s) as [|w ws]; [repeat constructor|].
  - simpl. unfold is_not. by rewrite Hc.
  - inversion IH as [|?? Hw Hws]; subst. constructor; [|done].
    simpl. unfold is_not at 1. by rewrite Hc.
Qed.

Lemma nonempty_true s : nonempty s = true <-> s <> EmptyString.
Proof. by destruct s. Qed.

Lemma entry_parts_names entry name :
  name ∈ entry_parts entry ->
  name <> EmptyString
  /\ strip name = name
  /\ contains "," name = false.
Proof.
  unfold entry_parts. rewrite list_elem_of_In, in_map_iff.
  intros (p & <- & [Hp Hne]%filter_In).
  split; [by apply nonempty_true|]. split; [apply strip_strip|].
  rewrite contains_char. apply negb_false_iff.
  apply list_elem_of_In in Hp.
  pose proof (split_no_sep "," entry) as Hall.
  rewrite Forall_forall in Hall.
  unfold strip. by apply str_forallb_rstrip, str_forallb_lstrip, Hall.
Qed.

(** X14: a protocol taken from [--protocols] is never empty, has no white
    space around it and holds no comma. *)
Theorem parse_protocols_names protocol_args name :
  name ∈ parse_protocols protocol_args ->
  name <> EmptyString
  /\ strip name = name
  /\ contains "," name = false.
Proof.
  destruct protocol_args as [entries|]; [|by intros ?%elem_of_nil].
  rewrite parse_protocols_fold.
  destruct (foldl_add_entry_spec entries (∅, []))
    as (_ & Hin & _).
  { apply NoDup_nil_2. }
  { intros x. simpl. by rewrite elem_of_empty, elem_of_nil. }
  intros [[]%elem_of_nil|Hname]%Hin.
  apply list_elem_of_In, in_flat_map in Hname as (entry & _ & Hname).
  by apply (entry_parts_names entry), list_elem_of_In.
Qed.

End more_protocols.

Lemma parse_protocols_names_witness :
  "Foo_exp" <> EmptyString
  /\ strip "Foo_exp" = "Foo_exp"
  /\ contains "," "Foo_exp" = false.
Proof.
  apply (parse_protocols_names (Some ["bar , Foo_exp"; ",bar"]) "Foo_exp").
  apply list_elem_of_In. right. by left.
Defined.

(** ** More on the project key *)

Section more_project_key.
Import Batch.

Lemma py_lower_char_twice c : py_lower_char (py_lower_char c) = py_lower_char c.
Proof. by destruct c as [[] [] [] [] [] [] [] []]. Qed.

Lemma py_isspace_lower c : py_isspace (py_lower_char c) = py_isspace c.
Proof. by destruct c as [[] [] [] [] [] [] [] []]. Qed.

Lemma lower_lower s : lower (lower s) = lower s.
Proof.
  unfold lower. rewrite str_map_map.
  induction s as [|c s IH]; simpl; [done|].
  by rewrite py_lower_char_twice, IH.
Qed.

Lemma lstrip_lower s : lstrip (lower s) = lower (lstrip s).
Proof.
  induction s as [|c s IH]; simpl; [done|].
  rewrite py_isspace_lower. by destruct (py_isspace c).
Qed.

Lemma rstrip_lower s : rstrip (lower s) = lower (rstrip s).
Proof.
  induction s as [|c s IH]; [done|].
  change (lower (String c s)) with (String (py_lower_char c) (lower s)).
  cbn [rstrip]. rewrite IH, py_isspace_lower.
  destruct (rstrip s) as [|d r]; simpl; [|done].
  by destruct (py_isspace c).
Qed.

Lemma strip_lower s : strip (lower s) = lower (strip s).
Proof. unfold strip. by rewrite lstrip_lower, rstrip_lower. Qed.

(** X15: the project key does not depend on the case of the letters of
    the protocol nor on white space around it. *)
Theorem protocol_to_key_ignores_case (x : string) :
  protocol_to_key (lower x) = protocol_to_key x
  /\ protocol_to_key (strip x) = protocol_to_key x.
Proof.
  unfold protocol_to_key. split.
  - by rewrite strip_lower, lower_lower.
  - by rewrite strip_strip.
Qed.

Lemma key_chars_no_space s :
  str_forallb is_key_char s = true -> str_forallb (is_not " ") s = true.
Proof.
  induction s as [|c s IH]; simpl; [done|].
  intros [[_ Hc]%andb_true_iff Hs]%andb_true_iff.
  unfold is_not at 1. by rewrite Hc, (IH Hs).
Qed.

Lemma key_chars_lower s : str_forallb is_key_char s = true -> lower s = s.
Proof.
  intros Hs. apply (str_map_fixed _ is_key_char); [|done].
  intros c Hc. by destruct (key_char_fixed c Hc).
Qed.

(** X16: a project key holds no space and no upper-case letter, and is
    never longer than the protocol once stripped and put in lower
    case. *)
Theorem protocol_to_key_shape (x : string) :
  contains " " (protocol_to_key x) = false
  /\ lower (protocol_to_key x) = protocol_to_key x
  /\ (String.length (protocol_to_key x)
      <= String.length (lower (strip x)))%nat.
Proof.
  pose proof (protocol_to_key_chars x) as Hchars. split; [|split].
  - rewrite contains_char. apply negb_false_iff.
    by apply key_chars_no_space.
  - by apply key_chars_lower.
  - unfold protocol_to_key.
    assert (String.length (replace " " "_" (lower (strip x)))
            = String.length (lower (strip x))) as Hlen.
    { unfold replace. by rewrite str_map_length. }
    destruct (endswith _ _); [|lia].
    unfold drop_last.
    pose proof (substring_length_le
                  (String.length (replace " " "_" (lower (strip x))) - 4)
                  (replace " " "_" (lower (strip x)))).
    lia.
Qed.

End more_project_key.

(** ** Discovering the protocols *)

Section more_filters.
Import Batch.

Lemma nonempty_false s : nonempty s = false <-> s = EmptyString.
Proof. by destruct s. Qed.

Lemma normalize_filters_spec filters :
  forall acc : gset string,
    match normalize_filters acc filters with
    | Return s =>
        Forall (fun item =>
                  strip item = EmptyString \/ is_year_month (strip item) = true)
          filters
        /\ forall f,
            f ∈ s
            <-> f ∈ acc
                \/ (f <> EmptyString
                    /\ exists item, item ∈ filters /\ strip item = f)
    | Raise e =>
        exists pre item post,
          filters = (pre ++ item :: post)%list
          /\ e = ValueError_filter (strip item)
          /\ strip item <> EmptyString
          /\ is_year_month (strip item) = false
          /\ Forall (fun item =>
                       strip item = EmptyString
                       \/ is_year_month (strip item) = true) pre
    end.
Proof.
  induction filters as [|item filters IH]; intros acc.
  - simpl. split; [constructor|]. intros f. split; [by left|].
    by intros [?|[_ (item & []%elem_of_nil & _)]].
  - cbn [normalize_filters].
    destruct (nonempty (strip item)) eqn:Hblank; cbn [negb].
    2: { apply nonempty_false in Hblank. specialize (IH acc).
         destruct (normalize_filters acc filters) as [s|e].
         - destruct IH as [Hall Hin]. split; [constructor; [by left|done]|].
           intros f. rewrite Hin.
           split; (intros [?|[Hf (i & Hi & Hs)]]; [by left|]).
           + right. split; [done|]. exists i. split; [by right|done].
           + right. split; [done|]. exists i. split; [|done].
             apply elem_of_cons in Hi as [->|?]; [congruence|done].
         - destruct IH as (pre & bad & post & -> & -> & Hne & Hbad & Hpre).
           exists (item :: pre), bad, post.
           repeat split; try done. constructor; [by left|done]. }
    apply nonempty_true in Hblank.
    rewrite <- negb_andb. fold (is_year_month (strip item)).
    destruct (is_year_month (strip item)) eqn:Hok; cbn [negb].
    2: { exists [], item, filters. repeat split; try done. }
    specialize (IH ({[strip item]} ∪ acc)).
    destruct (normalize_filters _ filters) as [s|e].
    + destruct IH as [Hall Hin]. split; [constructor; [by right|done]|].
      intros f. rewrite Hin, elem_of_union, elem_of_singleton.
      split.
      * intros [[->|?]|[Hf (i & Hi & Hs)]]; [|by left|].
        -- right. split; [done|]. exists item. split; [by left|done].
        -- right. split; [done|]. exists i. split; [by right|done].
      * intros [?|[Hf (i & Hi & Hs)]]; [by left; right|].
        apply elem_of_cons in Hi as [->|?]; [by left; left|].
        right. split; [done|]. by exists i.
    + destruct IH as (pre & bad & post & -> & -> & Hne & Hbad & Hpre).
      exists (item :: pre), bad, post.
      repeat split; try done. constructor; [by right|done].
Qed.

(** X17: the [--filter] values pass the validation exactly when each of
    them, stripped, is empty or has seven characters with a hyphen as
    the fifth; the set it gives then holds the stripped values that are
    not empty, and otherwise the error names the first value that
    fails. *)
Theorem normalize_filters_outcome (filters : list string) :
  match normalize_filters ∅ filters with
  | Return s =>
      Forall (fun item =>
                strip item = EmptyString \/ is_year_month (strip item) = true)
        filters
      /\ forall f,
          f ∈ s
          <-> f <> EmptyString
              /\ exists item, item ∈ filters /\ strip item = f
  | Raise e =>
      exists pre item post,
        filters = (pre ++ item :: post)%list
        /\ e = ValueError_filter (strip item)
        /\ strip item <> EmptyString
        /\ is_year_month (strip item) = false
        /\ Forall (fun item =>
                     strip item = EmptyString
                     \/ is_year_month (strip item) = true) pre
  end.
Proof.
  pose proof (normalize_filters_spec filters ∅) as Hspec.
  destruct (normalize_filters ∅ filters) as [s|e]; [|done].
  destruct Hspec as [Hall Hin]. split; [done|].
  intros f. rewrite Hin, elem_of_empty. tauto.
Qed.

End more_filters.

Section more_collect.
Import Batch.
Context {Path FS : Type} `{BatchOS Path FS} `{Install Path}.

Implicit Types (w : world FS).

Lemma in_insert_sorted x y l : x ∈ insert_sorted y l <-> x = y \/ x ∈ l.
Proof.
  induction l as [|z l IH]; simpl.
  - rewrite list_elem_of_singleton, elem_of_nil. tauto.
  - destruct (String.leb y z).
    + by rewrite elem_of_cons.
    + rewrite !elem_of_cons, IH. tauto.
Qed.

Lemma in_sorted x l : x ∈ sorted l <-> x ∈ l.
Proof.
  unfold sorted. induction l as [|y l IH]; simpl; [done|].
  by rewrite in_insert_sorted, IH, elem_of_cons.
Qed.

Lemma for_each_frame {A B} (body : A -> B -> prog (world FS) B) xs :
  (forall x acc w, (body x acc w).2 = w) ->
  forall acc w, (for_each body xs acc w).2 = w.
Proof.
  intros Hbody. induction xs as [|x xs IH]; intros acc w; simpl; [done|].
  unfold bind. specialize (Hbody x acc w).
  destruct (body x acc w) as [[acc'|e] w1]; simpl in *; subst; [|done].
  apply IH.
Qed.

Lemma iterdir_frame p w : (iterdir p w).2 = w.
Proof. unfold iterdir. by destruct (path_iterdir p (w_fs w)). Qed.

Lemma check_exists_frame p w : (check_exists p w).2 = w.
Proof. unfold check_exists. by destruct (path_exists p (w_fs w)). Qed.

Lemma check_is_dir_frame p w : (check_is_dir p w).2 = w.
Proof. unfold check_is_dir. by destruct (path_is_dir p (w_fs w)). Qed.

Lemma keep_dirs_frame parent names w : (keep_dirs parent names w).2 = w.
Proof.
  unfold keep_dirs. apply for_each_frame. intros d acc w1. unfold bind.
  pose proof (check_is_dir_frame (joinpath parent d) w1) as Hdir.
  by destruct (check_is_dir (joinpath parent d) w1) as [[found|e] w2].
Qed.

(** The directories that [keep_dirs] keeps. *)
Lemma keep_dirs_loop parent names :
  forall acc w l w',
    for_each
      (fun d dirs =>
         let* found := check_is_dir (joinpath parent d) in
         ret (if found then dirs ++ [d] else dirs)%list)
      names acc w
    = (Return l, w') ->
    forall d,
      d ∈ l
      <-> d ∈ acc
          \/ (d ∈ names
              /\ path_is_dir (joinpath parent d) (w_fs w) = Some true).
Proof.
  induction names as [|x names IH]; intros acc w l w'; simpl.
  - intros [= <- <-] d. split; [by left|].
    by intros [?|([]%elem_of_nil & _)].
  - unfold bind at 1 2, check_is_dir at 1.
    destruct (path_is_dir (joinpath parent x) (w_fs w)) as [found|] eqn:Hx;
      [|done].
    unfold ret at 1. intros Hrest d. rewrite (IH _ _ _ _ Hrest d).
    rewrite elem_of_cons.
    destruct found; rewrite ?elem_of_app, ?list_elem_of_singleton.
    + split.
      * intros [[Hacc|Hd]|[Hn Hdir]];
          [by left|subst; right; by auto|right; by auto].
      * intros [Hacc|[[Hd|Hn] Hdir]];
          [by left; left|by left; right|by right].
    + split.
      * intros [Hacc|[Hn Hdir]]; [by left|right; by auto].
      * intros [Hacc|[[Hd|Hn] Hdir]]; [by left|subst; congruence|by right].
Qed.

Lemma keep_dirs_members parent names w l w' :
  keep_dirs parent names w = (Return l, w') ->
  forall d,
    d ∈ l
    <-> d ∈ names /\ path_is_dir (joinpath parent d) (w_fs w) = Some true.
Proof.
  intros Hkeep d. rewrite (keep_dirs_loop _ _ _ _ _ _ Hkeep d), elem_of_nil.
  tauto.
Qed.

Lemma collect_protocols_frame filters w : (collect_protocols filters w).2 = w.
Proof.
  unfold collect_protocols. unfold bind at 1.
  pose proof (check_exists_frame EXTRACTED_ROOT w) as Hroot.
  destruct (check_exists EXTRACTED_ROOT w) as [[found|e] w0];
    simpl in Hroot; subst w0; [|done].
  destruct (negb found); [done|].
  unfold bind at 1, lift at 1.
  destruct (normalize_filters ∅ filters) as [s|e]; [|done].
  unfold bind at 1.
  pose proof (iterdir_frame EXTRACTED_ROOT w) as Hnames.
  destruct (iterdir EXTRACTED_ROOT w) as [[names|e] w1]; simpl in Hnames;
    subst; [|done].
  unfold bind at 1.
  pose proof (keep_dirs_frame EXTRACTED_ROOT names w) as Hdirs.
  destruct (keep_dirs EXTRACTED_ROOT names w) as [[dirs|e] w1];
    simpl in Hdirs; subst; [|done].
  apply for_each_frame. intros month acc w'.
  destruct (_ && _); [done|].
  unfold bind at 1.
  pose proof (iterdir_frame (joinpath EXTRACTED_ROOT month) w') as Hmonth.
  destruct (iterdir _ w') as [[entries|e] w2]; simpl in Hmonth; subst;
    [|done].
  unfold bind at 1.
  pose proof (keep_dirs_frame (joinpath EXTRACTED_ROOT month)
                (sorted entries) w') as Hkeep.
  by destruct (keep_dirs _ _ w') as [[protocol_dirs|e] w2].
Qed.

(** X18: discovering the protocols only reads: whatever it returns or
    raises, it prints nothing, runs nothing and leaves the file system
    as it is; when the root of the extracted contracts does not exist it
    raises [FileNotFoundError], whatever the filters are. *)
Theorem collect_protocols_reads_only filters w :
  (collect_protocols filters w).2 = w
  /\ (path_exists EXTRACTED_ROOT (w_fs w) = Some false ->
      (collect_protocols filters w).1 = Raise FileNotFoundError_extracted).
Proof.
  split; [apply collect_protocols_frame|].
  intros Hroot. unfold collect_protocols, bind, check_exists.
  by rewrite Hroot.
Qed.

(** The loop over the months, on a set [s] of filters. *)
Lemma collect_loop_members (s : gset string) months :
  forall acc w l w',
    for_each
      (fun month_dir protocols =>
         if negb (bool_decide (s = ∅)) && negb (bool_decide (month_dir ∈ s))
         then ret protocols
         else
           let month_path := joinpath EXTRACTED_ROOT month_dir in
           let* entries := iterdir month_path in
           let* protocol_dirs := keep_dirs month_path (sorted entries) in
           ret (protocols ++ protocol_dirs)%list)
      months acc w
    = (Return l, w') ->
    forall p,
      p ∈ l
      <-> p ∈ acc
          \/ exists month entries,
              month ∈ months
              /\ (s = ∅ \/ month ∈ s)
              /\ path_iterdir (joinpath EXTRACTED_ROOT month) (w_fs w)
                 = Some entries
              /\ p ∈ entries
              /\ path_is_dir (joinpath (joinpath EXTRACTED_ROOT month) p)
                   (w_fs w)
                 = Some true.
Proof.
  induction months as [|month months IH]; intros acc w l w'; simpl.
  - intros [= <- <-] p. split; [by left|].
    by intros [?|(? & ? & []%elem_of_nil & _)].
  - unfold bind at 1.
    destruct (negb (bool_decide (s = ∅)) && negb (bool_decide (month ∈ s)))
      eqn:Hskip.
    + unfold ret at 1. intros Hrest p.
      rewrite (IH _ _ _ _ Hrest p).
      apply andb_true_iff in Hskip as [Hne Hnotin].
      apply negb_true_iff, bool_decide_eq_false in Hne.
      apply negb_true_iff, bool_decide_eq_false in Hnotin.
      split; (intros [?|(m & entries & Hm & Hsel & Hrest')]; [by left|]).
      * right. exists m, entries. split; [by right|done].
      * right. exists m, entries. split; [|done].
        apply elem_of_cons in Hm as [->|?]; [|done].
        destruct Hrest' as [_ _]. by destruct Hsel.
    + unfold bind at 1, iterdir at 1.
      destruct (path_iterdir (joinpath EXTRACTED_ROOT month) (w_fs w))
        as [entries|] eqn:Hiter; [|done].
      unfold bind at 1.
      pose proof (keep_dirs_frame (joinpath EXTRACTED_ROOT month)
                    (sorted entries) w) as Hframe.
      destruct (keep_dirs (joinpath EXTRACTED_ROOT month) (sorted entries) w)
        as [[protocol_dirs|e] w1] eqn:Hkeep; simpl in Hframe; subst w1;
        [|done].
      unfold ret at 1. intros Hrest p.
      rewrite (IH _ _ _ _ Hrest p), elem_of_app.
      rewrite (keep_dirs_members _ _ _ _ _ Hkeep p), in_sorted.
      assert (s = ∅ \/ month ∈ s) as Hsel.
      { apply andb_false_iff in Hskip
          as [Hs%negb_false_iff%bool_decide_eq_true
             |Hm%negb_false_iff%bool_decide_eq_true]; auto. }
      split.
      * intros [[?|[Hp Hdir]]|(m & es & Hm & Hrest')]; [by left| |].
        -- right. exists month, entries. split; [by left|done].
        -- right. exists m, es. split; [by right|done].
      * intros [?|(m & es & Hm & Hsel' & Hit & Hp & Hdir)]; [by left; left|].
        apply elem_of_cons in Hm as [->|Hm].
        -- left. right. rewrite Hiter in Hit. by injection Hit as <-.
        -- right. by exists m, es.
Qed.

(** X19: the protocols that discovery returns are exactly the names of
    the directories found in the month directories under the root of the
    extracted contracts, the months being those the filters name, or all
    of them when no filter is given. *)
Theorem collect_protocols_members filters w protocols w' :
  collect_protocols filters w = (Return protocols, w') ->
  exists (s : gset string) names,
    normalize_filters ∅ filters = Return s
    /\ path_iterdir EXTRACTED_ROOT (w_fs w) = Some names
    /\ forall p,
        p ∈ protocols
        <-> exists month entries,
            (month ∈ names
             /\ path_is_dir (joinpath EXTRACTED_ROOT month) (w_fs w)
                = Some true)
            /\ (s = ∅ \/ month ∈ s)
            /\ path_iterdir (joinpath EXTRACTED_ROOT month) (w_fs w)
               = Some entries
            /\ p ∈ entries
            /\ path_is_dir (joinpath (joinpath EXTRACTED_ROOT month) p)
                 (w_fs w)
               = Some true.
Proof.
  unfold collect_protocols. unfold bind at 1, check_exists at 1.
  destruct (path_exists EXTRACTED_ROOT (w_fs w)) as [found|]; [|done].
  destruct (negb found); [done|].
  unfold bind at 1, lift at 1.
  destruct (normalize_filters ∅ filters) as [s|e]; [|done].
  unfold bind at 1, iterdir at 1.
  destruct (path_iterdir EXTRACTED_ROOT (w_fs w)) as [names|]; [|done].
  unfold bind at 1.
  pose proof (keep_dirs_frame EXTRACTED_ROOT names w) as Hframe.
  destruct (keep_dirs EXTRACTED_ROOT names w) as [[dirs|e] w1] eqn:Hkeep;
    simpl in Hframe; subst w1; [|done].
  intros Hloop. exists s, names. split; [done|]. split; [done|].
  intros p.
  rewrite (collect_loop_members s _ _ _ _ _ Hloop p).
  rewrite elem_of_nil.
  split.
  - intros [[]|(month & entries & Hm & Hrest)].
    exists month, entries. split; [|done].
    by apply in_sorted, (keep_dirs_members _ _ _ _ _ Hkeep) in Hm.
  - intros (month & entries & Hm & Hrest). right.
    exists month, entries. split; [|done].
    by apply in_sorted, (keep_dirs_members _ _ _ _ _ Hkeep).
Qed.

End more_collect.

Lemma collect_protocols_members_witness :
  exists (s : gset string) names,
    Batch.normalize_filters ∅ [" 2024-01 "] = Return s
    /\ MemFS.entries Runs.extracted Runs.extracted_fs = Some names
    /\ forall p,
        p ∈ ["Foo_exp"]
        <-> exists month entries,
            (month ∈ names
             /\ @Batch.path_is_dir _ _ (MemFS.batch_os (MemFS.idle_child 0))
                  (Runs.extracted ++ [month])%list Runs.extracted_fs
                = Some true)
            /\ (s = ∅ \/ month ∈ s)
            /\ MemFS.entries (Runs.extracted ++ [month])%list
                 Runs.extracted_fs
               = Some entries
            /\ p ∈ entries
            /\ @Batch.path_is_dir _ _ (MemFS.batch_os (MemFS.idle_child 0))
                 ((Runs.extracted ++ [month]) ++ [p])%list
                 Runs.extracted_fs
               = Some true.
Proof.
  apply (@collect_protocols_members _ _
           (MemFS.batch_os (MemFS.idle_child 0)) Examples.install
           [" 2024-01 "] (Examples.batch_world Runs.extracted_fs)
           ["Foo_exp"] (Examples.batch_world Runs.extracted_fs)).
  reflexivity.
Defined.

(** ** More on the loop of the driver *)

Section more_driver.
Import Batch.
Context {Path FS : Type} `{BatchOS Path FS} `{Install Path}.

Implicit Types (args : Namespace) (w : world FS) (t : tally).



(** One pass through the body of the loop, by the counters, the children
    and the output it leaves. *)
Lemma process_protocol_step args protocol t w t' w' :
  process_protocol args protocol t w = (Return t', w') ->
  (args_force args = true -> skipped t' = skipped t)
  /\ (length (w_spawned w) <= length (w_spawned w')
      <= S (length (w_spawned w)))%nat
  /\ (args_dry_run args = true -> w_spawned w' = w_spawned w)
  /\ (args_dry_run args = false ->
      (success t' + length (w_spawned w)
       <= success t + length (w_spawned w'))%nat)
  /\ (args_quiet args = true ->
      exists lines,
        w_out w' = (w_out w ++ map ChildLine lines)%list
        /\ (args_dry_run args = true -> lines = [])).
Proof.
  unfold process_protocol, resolve_template, bind, check_exists, log, run,
    print, ret.
  destruct (args_force args), (args_dry_run args), (args_quiet args);
    rewrite ?andb_false_r; cbn [negb];
    repeat (driver_step; rewrite ?andb_false_r, ?andb_true_r);
    intros [= <- <-]; cbn; rewrite ?length_app; cbn;
    (split; [|split; [|split; [|split]]]); intros; try done; try lia;
    first [by exists []; rewrite app_nil_r | by eexists].
Qed.

Lemma for_each_steps args protocol_list :
  forall t w t' w',
    for_each (process_protocol args) protocol_list t w = (Return t', w') ->
    (args_force args = true -> skipped t' = skipped t)
    /\ (length (w_spawned w) <= length (w_spawned w')
        <= length (w_spawned w) + length protocol_list)%nat
    /\ (args_dry_run args = true -> w_spawned w' = w_spawned w)
    /\ (args_dry_run args = false ->
        (success t' + length (w_spawned w)
         <= success t + length (w_spawned w'))%nat)
    /\ (args_quiet args = true ->
        exists lines,
          w_out w' = (w_out w ++ map ChildLine lines)%list
          /\ (args_dry_run args = true -> lines = [])).
Proof.
  induction protocol_list as [|protocol l IH]; intros t w t' w'; simpl.
  - intros [= <- <-]. repeat split; intros; try done; try lia.
    exists []. by rewrite app_nil_r.
  - unfold bind at 1.
    destruct (process_protocol args protocol t w) as [[t1|e] w1] eqn:Hstep;
      [|done].
    intros Hrest.
    apply process_protocol_step in Hstep as (Hf1 & Hn1 & Hd1 & Hs1 & Hq1).
    apply IH in Hrest as (Hf2 & Hn2 & Hd2 & Hs2 & Hq2).
    split; [|split; [lia|split; [|split]]]; intros Hflag.
    + by rewrite Hf2, Hf1.
    + by rewrite Hd2, Hd1.
    + specialize (Hs1 Hflag). specialize (Hs2 Hflag). lia.
    + destruct (Hq1 Hflag) as (lines1 & Hout1 & Hdry1).
      destruct (Hq2 Hflag) as (lines2 & Hout2 & Hdry2).
      exists (lines1 ++ lines2)%list. split.
      * by rewrite Hout2, Hout1, map_app, app_assoc.
      * intros Hdry. by rewrite (Hdry1 Hdry), (Hdry2 Hdry).
Qed.

(** X21: with [--force] no protocol is counted as skipped. *)
Theorem force_never_skips args protocol_list w t w' :
  process_all args protocol_list w = (Return t, w') ->
  args_force args = true ->
  skipped t = 0%nat.
Proof.
  intros Hloop Hforce.
  by apply for_each_steps in Hloop as (-> & _).
Qed.

(** X22: the loop runs one child per protocol at most; in a real run
    every success is a child that ran, and a dry run runs none. *)
Theorem children_of_the_loop args protocol_list w t w' :
  process_all args protocol_list w = (Return t, w') ->
  (length (w_spawned w')
   <= length (w_spawned w) + length protocol_list)%nat
  /\ (args_dry_run args = false ->
      (success t + length (w_spawned w) <= length (w_spawned w'))%nat)
  /\ (args_dry_run args = true -> w_spawned w' = w_spawned w).
Proof.
  intros Hloop.
  apply for_each_steps in Hloop as (_ & Hn & Hd & Hs & _).
  split; [lia|]. split; [|done].
  intros Hdry. specialize (Hs Hdry). simpl in Hs. lia.
Qed.

Lemma protocol_source_frame args w : (protocol_source args w).2 = w.
Proof.
  unfold protocol_source.
  destruct (parse_protocols (args_protocols args)); [|done].
  apply collect_protocols_frame.
Qed.


(** X24: a dry run, however it ends, runs no child and changes nothing in
    the file system but for the making of the output directory, which
    comes first when protocols are found: the file system it leaves is
    the one that [mkdir] has left, and the one it started on when no
    protocol is found or the discovery raises. *)
Theorem dry_run_only_makes_output_directory args w r w' :
  args_dry_run args = true ->
  main args w = (r, w') ->
  w_spawned w' = w_spawned w
  /\ match protocol_source args w with
     | (Return (_ :: _), _) =>
         forall fs',
           path_mkdir_parents OUTPUT_ROOT (w_fs w) = Some fs' ->
           w_fs w' = fs'
     | _ => w_fs w' = w_fs w
     end.
Proof.
  intros Hdry. unfold main. unfold bind at 1.
  pose proof (protocol_source_frame args w) as Hsource.
  destruct (protocol_source args w) as [[protocol_list|e] w1];
    simpl in Hsource; subst w1.
  2: { by intros [= <- <-]. }
  destruct protocol_list as [|protocol l].
  { by intros [= <- <-]. }
  unfold bind at 1, mkdir_parents at 1.
  destruct (path_mkdir_parents OUTPUT_ROOT (w_fs w)) as [fs1|].
  2: { by intros [= <- <-]. }
  unfold bind at 1, process_all.
  destruct (for_each (process_protocol args) (protocol :: l) no_tally _)
    as [[t|e] w3] eqn:Hloop;
    apply (dry_run_loop_frame args _ Hdry) in Hloop as [Hfs Hspawned];
    intros [= <- <-]; (split; [done|]); by intros fs' [= <-].
Qed.

End more_driver.


Lemma force_never_skips_witness :
  Batch.skipped (Batch.count_success Batch.no_tally) = 0%nat.
Proof.
  apply (@force_never_skips _ _ (MemFS.batch_os (MemFS.idle_child 0))
           Examples.install (Examples.batch_args ["Foo_exp"] true false)
           ["Foo_exp"] (Examples.batch_world Examples.batch_fs_done)
           (Batch.count_success Batch.no_tally)
           (Runs.real_loop 0 (Examples.batch_args ["Foo_exp"] true false)
              ["Foo_exp"]).2); reflexivity.
Defined.

Lemma children_of_the_loop_witness :
  (length
     (Batch.w_spawned
        (Runs.real_loop 0 (Examples.batch_args ["Foo_exp"; "bar"] true false)
           ["Foo_exp"; "bar"]).2)
   <= length (Batch.w_spawned (Examples.batch_world Examples.batch_fs_done))
      + length ["Foo_exp"; "bar"])%nat.
Proof.
  apply (@children_of_the_loop _ _ (MemFS.batch_os (MemFS.idle_child 0))
           Examples.install
           (Examples.batch_args ["Foo_exp"; "bar"] true false)
           ["Foo_exp"; "bar"] (Examples.batch_world Examples.batch_fs_done)
           (Batch.count_failed (Batch.count_success Batch.no_tally))
           (Runs.real_loop 0
              (Examples.batch_args ["Foo_exp"; "bar"] true false)
              ["Foo_exp"; "bar"]).2).
  reflexivity.
Defined.


Lemma dry_run_only_makes_output_directory_witness :
  Batch.w_spawned
    (Examples.run_main (Examples.batch_args ["Foo_exp"] false true)
       Examples.batch_fs).2
  = Batch.w_spawned (Examples.batch_world Examples.batch_fs)
  /\ Batch.w_fs
       (Examples.run_main (Examples.batch_args ["Foo_exp"] false true)
          Examples.batch_fs).2
     = <[ Examples.configs_dir := MemFS.Dir ]>
         (<[ ["repo"; "autopath"; "pkg"; "invariants"] := MemFS.Dir ]>
            (<[ ["repo"; "autopath"; "pkg"] := MemFS.Dir ]>
               Examples.batch_fs)).
Proof.
  destruct (@dry_run_only_makes_output_directory _ _
              (MemFS.batch_os (MemFS.idle_child 0))
              Examples.install (Examples.batch_args ["Foo_exp"] false true)
              (Examples.batch_world Examples.batch_fs)
              (Examples.run_main (Examples.batch_args ["Foo_exp"] false true)
                 Examples.batch_fs).1
              (Examples.run_main (Examples.batch_args ["Foo_exp"] false true)
                 Examples.batch_fs).2 eq_refl eq_refl) as [Hspawned Hfs].
  split; [exact Hspawned|]. exact (Hfs _ eq_refl).
Defined.

(** ** The command of the child *)

Section more_command.
Import Batch.
Context {Path FS : Type} `{BatchOS Path FS} `{Install Path}.

Lemma lookup_var_words (extra_vars : list string) i :
  flat_map (fun kv => ["--var"; kv]) extra_vars !! (2 * i)%nat
  = (fun _ => "--var") <$> extra_vars !! i
  /\ flat_map (fun kv => ["--var"; kv]) extra_vars !! S (2 * i)
     = extra_vars !! i.
Proof.
  revert i. induction extra_vars as [|kv l IH]; intros i.
  - simpl. by rewrite !lookup_nil.
  - destruct i as [|i]; [done|].
    replace (2 * S i)%nat with (S (S (2 * i))) by lia.
    exact (IH i).
Qed.

(** X25: the command of the child has ten words for the interpreter, the
    script, the project, the template, the output and the deployment
    file, which is always passed, and then, for each [--var] of the
    driver in order, the word [--var] and the pair itself. *)
Theorem build_command_words project template_path deploy_path output_path
    (extra_vars : list string) :
  take 10
    (build_command project template_path deploy_path output_path extra_vars)
  = [sys_executable; path_str GENERATE_CONFIG;
     "--project"; project;
     "--template"; path_str template_path;
     "--output"; path_str output_path;
     "--deploy"; path_str deploy_path]
  /\ length
       (build_command project template_path deploy_path output_path
          extra_vars)
     = (10 + 2 * length extra_vars)%nat
  /\ forall i,
      build_command project template_path deploy_path output_path extra_vars
        !! (10 + 2 * i)%nat
      = (fun _ => "--var") <$> extra_vars !! i
      /\ build_command project template_path deploy_path output_path
           extra_vars !! (11 + 2 * i)%nat
         = extra_vars !! i.
Proof.
  unfold build_command. split; [done|]. split.
  - rewrite !length_app. simpl. f_equal. f_equal.
    induction extra_vars as [|kv l IH]; simpl; [done|]. rewrite IH. lia.
  - intros i. exact (lookup_var_words extra_vars i).
Qed.

End more_command.
